(** * MongoDBWallet (lib/wallet.js): a shallow embedding and its properties

    The wallet stores named credentials (text or binary) as documents of one
    MongoDB collection, scoped by a name prefix kept in the [path] field.

    - [Base64]   : the Buffer <-> base64 text conversion of the Node runtime.
    - [Mongoose] : the collection and the four driver calls the wallet makes.
    - [Wallet]   : the class itself, method by method.
    - the theorems, one group per property of the specification. *)

From Stdlib Require Import NArith Ascii String Strings.Byte.
From stdpp Require Import gmap strings list fin_maps.

Local Open Scope string_scope.

(* ===================================================================== *)
(** ** Base64: [buf.toString('base64')] and [Buffer.from(str, 'base64')]  *)
(* ===================================================================== *)

Module Base64.

Local Open Scope N_scope.

(** A byte as the unsigned number the runtime computes with. *)
Definition byte_to_N (b : byte) : N := Byte.to_N b.

(** Storing a number into a [uint8_t] cell keeps its low eight bits. *)
Definition byte_of_N (n : N) : byte :=
  match Byte.of_N (N.land n 255) with
  | Some b => b
  | None => x00
  end.

(** The 64 characters of the standard alphabet, by index. *)
Definition alphabet : string :=
  "ABCDEFGHIJKLMNOPQRSTUVWXYZabcdefghijklmnopqrstuvwxyz0123456789+/".

Definition base64_char (n : N) : ascii :=
  match String.get (N.to_nat n) alphabet with
  | Some c => c
  | None => "="%char
  end.

(** [unbase64]: the value of a legal character; the decoder accepts the
    URL-safe characters '-' and '_' next to '+' and '/'. *)
Definition unbase64 (c : ascii) : option N :=
  let n := N_of_ascii c in
  if (65 <=? n) && (n <=? 90) then Some (n - 65)
  else if (97 <=? n) && (n <=? 122) then Some (n - 97 + 26)
  else if (48 <=? n) && (n <=? 57) then Some (n - 48 + 52)
  else if (n =? 43) || (n =? 45) then Some 62
  else if (n =? 47) || (n =? 95) then Some 63
  else None.

(** The four sextets of a three byte group. *)
Definition sextet0 (a : N) : N := N.shiftr a 2.
Definition sextet1 (a b : N) : N := N.lor (N.shiftl (N.land a 3) 4) (N.shiftr b 4).
Definition sextet2 (b c : N) : N := N.lor (N.shiftl (N.land b 15) 2) (N.shiftr c 6).
Definition sextet3 (c : N) : N := N.land c 63.

(** [encode]: groups of three bytes become four characters; a trailing
    group of one or two bytes is padded with '='. *)
Fixpoint encode (bs : list byte) : string :=
  match bs with
  | [] => ""
  | [a] =>
      let a := byte_to_N a in
      String (base64_char (sextet0 a))
        (String (base64_char (sextet1 a 0)) "==")
  | [a; b] =>
      let a := byte_to_N a in
      let b := byte_to_N b in
      String (base64_char (sextet0 a))
        (String (base64_char (sextet1 a b))
           (String (base64_char (sextet2 b 0)) "="))
  | a :: b :: c :: rest =>
      let a := byte_to_N a in
      let b := byte_to_N b in
      let c := byte_to_N c in
      String (base64_char (sextet0 a))
        (String (base64_char (sextet1 a b))
           (String (base64_char (sextet2 b c))
              (String (base64_char (sextet3 c)) (encode rest))))
  end.

(** The decoder reads legal characters, skips every other character and
    stops at the first '='. The text is a [string], its code units below
    256; the runtime looks a code unit up by its low byte, which for these
    is the unit itself. *)
Fixpoint sextets (s : string) : list N :=
  match s with
  | EmptyString => []
  | String c s' =>
      if Ascii.eqb c "="%char then []
      else match unbase64 c with
           | Some n => n :: sextets s'
           | None => sextets s'
           end
  end.

(** The three bytes rebuilt from four sextets [hi], [lo] pairs. *)
Definition octet0 (hi lo : N) : byte :=
  byte_of_N (N.lor (N.shiftl (N.land hi 63) 2) (N.shiftr (N.land lo 48) 4)).
Definition octet1 (hi lo : N) : byte :=
  byte_of_N (N.lor (N.shiftl (N.land hi 15) 4) (N.shiftr (N.land lo 60) 2)).
Definition octet2 (hi lo : N) : byte :=
  byte_of_N (N.lor (N.shiftl (N.land hi 3) 6) (N.land lo 63)).

(** A byte is written as soon as the sextet completing it has been read:
    two sextets give one byte, three give two, four give three. *)
Fixpoint decode_groups (l : list N) : list byte :=
  match l with
  | s0 :: s1 :: s2 :: s3 :: rest =>
      octet0 s0 s1 :: octet1 s1 s2 :: octet2 s2 s3 :: decode_groups rest
  | [s0; s1; s2] => [octet0 s0 s1; octet1 s1 s2]
  | [s0; s1] => [octet0 s0 s1]
  | _ => []
  end.

Definition decode (s : string) : list byte := decode_groups (sextets s).

(** Every byte, for proofs by enumeration. *)
Definition all_bytes : list byte :=
  map (fun n => byte_of_N (N.of_nat n)) (seq 0 256).

(** One character of the alphabet decodes to the sextet it stands for. *)
Definition char_ok (n : N) : bool :=
  negb (Ascii.eqb (base64_char n) "="%char)
  && match unbase64 (base64_char n) with
     | Some m => m =? n
     | None => false
     end.

(** The characters the decoder documents as ignored: space, tab, line
    feed and carriage return. *)
Definition whitespace : list ascii :=
  [" "%char; "009"%char; "010"%char; "013"%char].

End Base64.

(* ===================================================================== *)
(** ** JavaScript values, errors and completions                          *)
(* ===================================================================== *)

(** [new Error(message)]: the only error class the wallet raises. *)
Inductive JsError : Type :=
| Error (msg : string).

Definition message (e : JsError) : string :=
  match e with Error m => m end.

(** A JavaScript string is a sequence of UTF-16 code units, numbers below
    65536. Where this development writes a [string] (names, prefixes,
    messages, base64 text) it means the JavaScript string whose code units
    are the characters of that [string], all below 256; the text of a
    credential is arbitrary and is a [Text]. *)
Definition Text : Type := list N.

(** The code units of a [string]. *)
Definition text (s : string) : Text :=
  map N_of_ascii (list_ascii_of_string s).

(** The two halves of a surrogate pair: D800-DBFF and DC00-DFFF. *)
Definition is_high_surrogate (u : N) : bool :=
  ((55296 <=? u) && (u <=? 56319))%N.

Definition is_low_surrogate (u : N) : bool :=
  ((56320 <=? u) && (u <=? 57343))%N.

(** [s.isWellFormed()]: every surrogate is part of a pair. *)
Fixpoint isWellFormed (s : Text) : bool :=
  match s with
  | [] => true
  | u :: s' =>
      if is_high_surrogate u then
        match s' with
        | v :: s'' => is_low_surrogate v && isWellFormed s''
        | [] => false
        end
      else negb (is_low_surrogate u) && isWellFormed s'
  end.

(** [s.toWellFormed()]: a surrogate that is not part of a pair becomes
    U+FFFD. This is what writing a string as UTF-8 and reading it back
    does to it. *)
Fixpoint toWellFormed (s : Text) : Text :=
  match s with
  | [] => []
  | u :: s' =>
      if is_high_surrogate u then
        match s' with
        | v :: s'' =>
            if is_low_surrogate v then u :: v :: toWellFormed s''
            else 65533%N :: toWellFormed s'
        | [] => [65533%N]
        end
      else if is_low_surrogate u then 65533%N :: toWellFormed s'
      else u :: toWellFormed s'
  end.

(** The values a caller can hand to [put], by the tests the method makes. *)
Inductive JsValue : Type :=
| JsUndefined
| JsNull
| JsBoolean (b : bool)
| JsNumber (n : Z)
| JsString (s : Text)              (* typeof value === 'string' *)
| JsStringObject (s : Text)        (* value instanceof String *)
| JsBuffer (bytes : list byte)     (* value instanceof Buffer *)
| JsObject (className : string).   (* an instance of any other class *)

(** How a call ends: [Return a] is a normal return (for an async method, a
    promise resolved with [a]); [Throw e] is an exception (for an async
    method, a promise rejected with [e]). *)
Inductive Completion (A : Type) : Type :=
| Return (a : A)
| Throw (e : JsError).
Arguments Return {A} a.
Arguments Throw {A} e.

(** A string is truthy unless it is empty: [!s] holds for [""] only. *)
Definition truthy (s : string) : bool := negb (String.eqb s "").

(** A field of an object is truthy when it is there and truthy:
    [!o.field] holds for an absent field too. *)
Definition truthy_field (f : option string) : bool :=
  match f with
  | Some s => truthy s
  | None => false
  end.

(* ===================================================================== *)
(** ** Mongoose: the collection and the driver calls the wallet makes     *)
(* ===================================================================== *)

Module Mongoose.

(** A document of the schema declared in the constructor. A value field
    is absent ([None]) or holds a string; a field holding [null], which no
    wallet writes, is not represented. *)
Record Document : Type := {
  name : string;
  path : string;
  valueBase64 : option string;
  valueString : option Text
}.

(** The collection. The order of the list stands for the order in which
    the store hands its documents out, which nothing guarantees. The store
    does not enforce that (name, path) is unique. Every driver call
    settles normally: connection and transport failures are outside this
    development. *)
Definition Collection : Type := list Document.

(** A filter object: each field given must be equal in the document. *)
Record Query : Type := {
  q_name : option string;
  q_path : option string
}.

Definition field_matches (q : option string) (v : string) : bool :=
  match q with
  | Some x => String.eqb x v
  | None => true
  end.

Definition matches (q : Query) (d : Document) : bool :=
  field_matches (q_name q) (name d) && field_matches (q_path q) (path d).

(** An asynchronous call: it runs against the collection and settles. *)
Definition Async (A : Type) : Type := Collection -> Completion A * Collection.

Definition resolve {A} (a : A) : Async A := fun c => (Return a, c).
Definition reject {A} (e : JsError) : Async A := fun c => (Throw e, c).

(** [await m] followed by the rest of the method. *)
Definition bind {A B} (m : Async A) (k : A -> Async B) : Async B :=
  fun c =>
    match m c with
    | (Return a, c') => k a c'
    | (Throw e, c') => (Throw e, c')
    end.

(** The write result of [update] and [remove], reduced to its fields
    [ok] and [n]; what else the driver reports ([nModified], [upserted])
    is not kept. *)
Record WriteResult : Type := { ok : bool; n : nat }.

Record UpdateOptions : Type := { upsert : bool; overwrite : bool }.

(** Without [overwrite] the update is a [$set] of the fields given. *)
Definition merge (old upd : Document) : Document :=
  {| name := name upd;
     path := path upd;
     valueBase64 := match valueBase64 upd with
                    | Some v => Some v
                    | None => valueBase64 old
                    end;
     valueString := match valueString upd with
                    | Some v => Some v
                    | None => valueString old
                    end |}.

(** Apply [f] to the first document matching [q], if there is one. *)
Fixpoint update_first (q : Query) (f : Document -> Document)
    (c : Collection) : option Collection :=
  match c with
  | [] => None
  | d :: c' =>
      if matches q d then Some (f d :: c')
      else match update_first q f c' with
           | Some c'' => Some (d :: c'')
           | None => None
           end
  end.

(** The driver's [collection.update] on a document already serialized:
    one document at most is updated; with [upsert] the document is
    inserted when none matches. *)
Definition collection_update (q : Query) (doc : Document)
    (opts : UpdateOptions) : Async WriteResult :=
  fun c =>
    let f := fun old => if overwrite opts then doc else merge old doc in
    match update_first q f c with
    | Some c' => (Return {| ok := true; n := 1 |}, c')
    | None =>
        if upsert opts
        then (Return {| ok := true; n := 1 |}, (c ++ [doc])%list)
        else (Return {| ok := true; n := 0 |}, c)
    end.

(** What becomes of a document on its way into the store: a string is
    written as UTF-8, which has no encoding for a surrogate that stands
    alone. The strings of the other fields have no surrogates. *)
Definition serialize (doc : Document) : Document :=
  {| name := name doc;
     path := path doc;
     valueBase64 := valueBase64 doc;
     valueString := match valueString doc with
                    | Some s => Some (toWellFormed s)
                    | None => None
                    end |}.

(** [Model.update(conditions, doc, options)]. *)
Definition update (q : Query) (doc : Document) (opts : UpdateOptions)
    : Async WriteResult :=
  collection_update q (serialize doc) opts.

(** [Model.remove(conditions).exec()]: every matching document goes. *)
Definition remove (q : Query) : Async WriteResult :=
  fun c =>
    (Return {| ok := true; n := length (List.filter (matches q) c) |},
     List.filter (fun d => negb (matches q d)) c).

(** [Model.find(conditions, projection).exec()]. The wallet's projection
    keeps [name], the one field it reads from the result. *)
Definition find (q : Query) : Async (list Document) :=
  fun c => (Return (List.filter (matches q) c), c).

(** [Model.findOne(conditions).exec()]: the first match, or [null]. *)
Definition findOne (q : Query) : Async (option Document) :=
  fun c => (Return (List.find (matches q) c), c).

End Mongoose.

Notation "x <- m ;; k" := (Mongoose.bind m (fun x => k))
  (at level 100, m at next level, right associativity).

(* ===================================================================== *)
(** ** MongoDBWallet                                                      *)
(* ===================================================================== *)

(** The [options] argument of the constructor. *)
Module Options.
Record t : Type := {
  uri : option string;
  collectionName : option string;
  namePrefix : option string;
  options : list (string * string)
}.
End Options.

Module Wallet.

Import Mongoose.

(** The fields of an instance. The connection and the model bound to the
    collection are the [Collection] the methods run against. *)
Record MongoDBWallet : Type := {
  mongodbConfig : Options.t;
  namePrefix : string
}.

Definition constructor (options : option Options.t)
    : Completion MongoDBWallet :=
  match options with
  | None => Throw (Error "Need configuration")
  | Some o =>
      if negb (truthy_field (Options.uri o))
      then Throw (Error "Need an URI to connect to MongoDB")
      else if negb (truthy_field (Options.collectionName o))
      then Throw (Error "Need a collection name for the wallet")
      else match Options.namePrefix o with
           | Some p =>
               if negb (truthy p)
               then Throw (Error "Need a namePrefix in options")
               else Return {| mongodbConfig := o; namePrefix := p |}
           | None => Throw (Error "Need a namePrefix in options")
           end
  end.

(** The filter [{ name: name, path: this.namePrefix }]. *)
Definition by_name (w : MongoDBWallet) (k : string) : Query :=
  {| q_name := Some k; q_path := Some (namePrefix w) |}.

(** The filter [{ path: this.namePrefix }]. *)
Definition by_path (w : MongoDBWallet) : Query :=
  {| q_name := None; q_path := Some (namePrefix w) |}.

Definition put (w : MongoDBWallet) (k : string) (value : JsValue)
    : Async WriteResult :=
  if negb (truthy k) then reject (Error "Name must be specified")
  else
    let card := {| name := k; path := namePrefix w;
                   valueBase64 := None; valueString := None |} in
    let store card :=
      update (by_name w (name card)) card
             {| upsert := true; overwrite := true |} in
    match value with
    | JsBuffer b =>
        store {| name := name card; path := path card;
                 valueBase64 := Some (Base64.encode b);
                 valueString := valueString card |}
    | JsStringObject s | JsString s =>
        store {| name := name card; path := path card;
                 valueBase64 := valueBase64 card;
                 valueString := Some s |}
    | _ => reject (Error "Unkown type being stored")
    end.

Definition remove (w : MongoDBWallet) (k : string) : Async WriteResult :=
  if negb (truthy k) then reject (Error "Name must be specified")
  else Mongoose.remove (by_name w k).

Definition listNames (w : MongoDBWallet) : Async (list string) :=
  result <- find (by_path w) ;;
  resolve (map name result).

Definition contains (w : MongoDBWallet) (k : string) : Async bool :=
  if negb (truthy k) then reject (Error "Name must be specified")
  else
    result <- findOne (by_name w k) ;;
    resolve (match result with Some _ => true | None => false end).

Definition get (w : MongoDBWallet) (k : string) : Async JsValue :=
  if negb (truthy k) then reject (Error "Name must be specified")
  else
    card <- findOne (by_name w k) ;;
    match card with
    | None => reject (Error "The specified key does not exist")
    | Some card =>
        match valueBase64 card with
        | Some b64 => resolve (JsBuffer (Base64.decode b64))
        | None =>
            match valueString card with
            | Some s => resolve (JsString s)
            | None => reject (Error "Unkown type being stored")
            end
        end
    end.

(** What other users of the collection do while [getAll] is suspended
    at an [await]: [env i] runs before the [get] of the [i]-th key. *)
Definition Interference : Type := nat -> Collection -> Collection.

Definition quiet : Interference := fun _ c => c.

(** The [for (const key of keys)] loop of [getAll]; [results] is the
    [Map] being filled. *)
Fixpoint getAll_loop (w : MongoDBWallet) (env : Interference) (i : nat)
    (keys : list string) (results : gmap string JsValue)
    : Async (gmap string JsValue) :=
  match keys with
  | [] => resolve results
  | key :: keys' =>
      fun c =>
        (value <- get w key ;;
         getAll_loop w env (S i) keys' (<[key := value]> results))
          (env i c)
  end.

Definition getAll_under (env : Interference) (w : MongoDBWallet)
    : Async (gmap string JsValue) :=
  keys <- listNames w ;;
  getAll_loop w env 0 keys ∅.

(** [getAll] with nobody else writing to the collection. *)
Definition getAll (w : MongoDBWallet) : Async (gmap string JsValue) :=
  getAll_under quiet w.

(** The document [put] leaves in the collection for a value it accepts. *)
Definition card_of (w : MongoDBWallet) (k : string) (value : JsValue)
    : option Document :=
  match value with
  | JsBuffer b =>
      Some {| name := k; path := namePrefix w;
              valueBase64 := Some (Base64.encode b); valueString := None |}
  | JsStringObject s | JsString s =>
      Some {| name := k; path := namePrefix w;
              valueBase64 := None; valueString := Some (toWellFormed s) |}
  | _ => None
  end.

(** The documents of the collection stored under key [k] of wallet [w]. *)
Definition stored (w : MongoDBWallet) (k : string) (c : Collection)
    : list Document :=
  List.filter (matches (by_name w k)) c.

(** The two kinds of value the specification speaks of: a text string and
    a byte buffer. *)
Inductive supported : JsValue -> Prop :=
| supported_string (s : Text) : supported (JsString s)
| supported_buffer (b : list byte) : supported (JsBuffer b).

(** A value whose text, when it is a string, is well-formed UTF-16. *)
Definition well_formed_value (value : JsValue) : bool :=
  match value with
  | JsStringObject s | JsString s => isWellFormed s
  | _ => true
  end.

(** The values that pass one of the two type tests of [put]. *)
Definition accepted (value : JsValue) : bool :=
  match value with
  | JsBuffer _ | JsStringObject _ | JsString _ => true
  | _ => false
  end.

(** The states of a collection that wallets alone have written to. *)
Inductive reachable : Collection -> Prop :=
| reachable_empty : reachable []
| reachable_put w k v c : reachable c -> reachable (snd (put w k v c))
| reachable_remove w k c : reachable c -> reachable (snd (remove w k c)).

(** A document as the wallet writes them: a name that is not empty and
    exactly one of the two value fields. *)
Definition well_formed (d : Document) : bool :=
  truthy (name d)
  && match valueBase64 d, valueString d with
     | Some _, None | None, Some _ => true
     | _, _ => false
     end.

End Wallet.

(* ===================================================================== *)
(** ** Sample wallets and collections, after the test suite               *)
(* ===================================================================== *)

Module Sample.

Import Mongoose Wallet.

Definition config (prefix : string) : Options.t :=
  {| Options.uri := Some "mongodb://localhost:27017/testWallletCollection";
     Options.collectionName := Some "testWallet";
     Options.namePrefix := Some prefix;
     Options.options := [] |}.

Definition walletAlpha : MongoDBWallet :=
  {| mongodbConfig := config "alpha"; namePrefix := "alpha" |}.

Definition walletBeta : MongoDBWallet :=
  {| mongodbConfig := config "beta"; namePrefix := "beta" |}.

Definition quoteA : Text :=
  text "Breathe in your fears. Face them. To conquer fear, you must become fear.".

Definition quoteB : Text :=
  text "It's not who I am underneath, but what I do that defines me".

(** ['a\ud800b']: a high surrogate that stands alone, and what is left
    of it once stored. *)
Definition loneSurrogate : Text := [97; 55296; 98]%N.
Definition replaced : Text := [97; 65533; 98]%N.

(** [Buffer.from([1, 2, 3])] and a buffer that is not valid UTF-8. *)
Definition buffer123 : list byte := [x01; x02; x03].
Definition bufferRaw : list byte := [xff; xfe; x00; xc3; x28].

(** A collection holding one text card under each of the two prefixes. *)
Definition twoPrefixes : Collection :=
  [ {| name := "Batman"; path := "alpha";
       valueBase64 := None; valueString := Some quoteA |};
    {| name := "Batman"; path := "beta";
       valueBase64 := None; valueString := Some quoteB |} ].

(** Two text cards of the first wallet. *)
Definition twoCards : Collection :=
  [ {| name := "Batman-Original"; path := "alpha";
       valueBase64 := None; valueString := Some quoteA |};
    {| name := "Batman-Reloaded"; path := "alpha";
       valueBase64 := None; valueString := Some quoteB |} ].

(** A document that carries both value fields, and one that carries none. *)
Definition bothFields : Document :=
  {| name := "Batman"; path := "alpha";
     valueBase64 := Some "AQID"; valueString := Some quoteA |}.

Definition noField : Document :=
  {| name := "Batman"; path := "alpha";
     valueBase64 := None; valueString := None |}.

(** Another user of the collection removing a key of [walletAlpha]
    before the [get] of the key at position [i]. *)
Definition removes_before (i : nat) (k : string) : Interference :=
  fun j c => if Nat.eqb i j then snd (Wallet.remove walletAlpha k c) else c.

(** A collection two wallets have written to, starting from nothing. *)
Definition afterPuts : Collection :=
  snd (put walletAlpha "Joker" (JsString quoteB)
    (snd (put walletBeta "Batman" (JsBuffer buffer123)
      (snd (put walletAlpha "Batman" (JsString quoteA) []))))).

(** A collection in which somebody else has left, under the first
    wallet's prefix, a document without a value. *)
Definition foreignCards : Collection :=
  [ {| name := "Batman-Original"; path := "alpha";
       valueBase64 := None; valueString := Some quoteA |};
    noField ].

End Sample.

(* ===================================================================== *)
(** ** Base64: decoding what was encoded                                 *)
(* ===================================================================== *)

Section Base64Facts.

Import Base64.
Local Open Scope N_scope.

Lemma all_bytes_complete (b : byte) : In b all_bytes.
Proof.
  assert (H : existsb (Byte.eqb b) all_bytes = true)
    by (destruct b; vm_compute; reflexivity).
  apply existsb_exists in H. destruct H as (x & Hin & Heq).
  apply Byte.byte_dec_bl in Heq. now subst.
Qed.

Lemma forall_bytes (P : byte -> bool) :
  forallb P all_bytes = true -> forall b, P b = true.
Proof.
  intros H b. rewrite forallb_forall in H. apply H, all_bytes_complete.
Qed.

Lemma forall_bytes2 (P : byte -> byte -> bool) :
  forallb (fun a => forallb (P a) all_bytes) all_bytes = true ->
  forall a b, P a b = true.
Proof.
  intros H a b.
  apply (forall_bytes (P a)). revert a. apply (forall_bytes _ H).
Qed.

Lemma sextets_cons n s :
  char_ok n = true -> sextets (String (base64_char n) s) = n :: sextets s.
Proof.
  unfold char_ok. intros H. apply andb_prop in H as [H1 H2].
  cbn [sextets]. apply negb_true_iff in H1. rewrite H1.
  destruct (unbase64 (base64_char n)) as [m|]; [|discriminate].
  apply N.eqb_eq in H2. now subst.
Qed.

Lemma char_ok_sextet0 a : char_ok (sextet0 (byte_to_N a)) = true.
Proof. revert a. apply forall_bytes. vm_compute. reflexivity. Qed.

Lemma char_ok_sextet3 a : char_ok (sextet3 (byte_to_N a)) = true.
Proof. revert a. apply forall_bytes. vm_compute. reflexivity. Qed.

Lemma char_ok_sextet1 a b :
  char_ok (sextet1 (byte_to_N a) (byte_to_N b)) = true.
Proof.
  revert a b.
  apply (forall_bytes2 (fun a b => char_ok (sextet1 (byte_to_N a) (byte_to_N b)))).
  vm_compute. reflexivity.
Qed.

Lemma char_ok_sextet2 a b :
  char_ok (sextet2 (byte_to_N a) (byte_to_N b)) = true.
Proof.
  revert a b.
  apply (forall_bytes2 (fun a b => char_ok (sextet2 (byte_to_N a) (byte_to_N b)))).
  vm_compute. reflexivity.
Qed.

Lemma char_ok_sextet1_last a : char_ok (sextet1 (byte_to_N a) 0) = true.
Proof. revert a. apply forall_bytes. vm_compute. reflexivity. Qed.

Lemma char_ok_sextet2_last a : char_ok (sextet2 (byte_to_N a) 0) = true.
Proof. revert a. apply forall_bytes. vm_compute. reflexivity. Qed.

(** The octets rebuilt from the sextets of a group are its bytes. *)
Lemma octet0_sextets a b :
  octet0 (sextet0 (byte_to_N a)) (sextet1 (byte_to_N a) (byte_to_N b)) = a.
Proof.
  apply Byte.byte_dec_bl. revert a b.
  apply (forall_bytes2 (fun a b =>
    Byte.eqb (octet0 (sextet0 (byte_to_N a))
                     (sextet1 (byte_to_N a) (byte_to_N b))) a)).
  vm_compute. reflexivity.
Qed.

Lemma octet1_sextets a b c :
  octet1 (sextet1 (byte_to_N a) (byte_to_N b))
         (sextet2 (byte_to_N b) (byte_to_N c)) = b.
Proof.
  (* the high nibble of b comes from sextet1, the low one from sextet2 *)
  assert (Ha : forall a b,
    N.land (sextet1 (byte_to_N a) (byte_to_N b)) 15
    = N.shiftr (byte_to_N b) 4).
  { intros a' b'. apply N.eqb_eq. revert a' b'.
    apply (forall_bytes2 (fun a b =>
      N.land (sextet1 (byte_to_N a) (byte_to_N b)) 15
      =? N.shiftr (byte_to_N b) 4)).
    vm_compute. reflexivity. }
  assert (Hc : forall b c,
    N.shiftr (N.land (sextet2 (byte_to_N b) (byte_to_N c)) 60) 2
    = N.land (byte_to_N b) 15).
  { intros b' c'. apply N.eqb_eq. revert b' c'.
    apply (forall_bytes2 (fun b c =>
      N.shiftr (N.land (sextet2 (byte_to_N b) (byte_to_N c)) 60) 2
      =? N.land (byte_to_N b) 15)).
    vm_compute. reflexivity. }
  unfold octet1. rewrite Ha, Hc.
  apply Byte.byte_dec_bl. revert b.
  apply forall_bytes. vm_compute. reflexivity.
Qed.

Lemma octet2_sextets b c :
  octet2 (sextet2 (byte_to_N b) (byte_to_N c)) (sextet3 (byte_to_N c)) = c.
Proof.
  apply Byte.byte_dec_bl. revert b c.
  apply (forall_bytes2 (fun b c =>
    Byte.eqb (octet2 (sextet2 (byte_to_N b) (byte_to_N c))
                     (sextet3 (byte_to_N c))) c)).
  vm_compute. reflexivity.
Qed.

Lemma octet0_sextets_last a :
  octet0 (sextet0 (byte_to_N a)) (sextet1 (byte_to_N a) 0) = a.
Proof.
  apply Byte.byte_dec_bl. revert a. apply forall_bytes.
  vm_compute. reflexivity.
Qed.

Lemma octet1_sextets_last a b :
  octet1 (sextet1 (byte_to_N a) (byte_to_N b)) (sextet2 (byte_to_N b) 0) = b.
Proof.
  apply Byte.byte_dec_bl. revert a b.
  apply (forall_bytes2 (fun a b =>
    Byte.eqb (octet1 (sextet1 (byte_to_N a) (byte_to_N b))
                     (sextet2 (byte_to_N b) 0)) b)).
  vm_compute. reflexivity.
Qed.

(** Induction over a list three elements at a time. *)
Lemma list_ind3 {A} (P : list A -> Prop) :
  P [] -> (forall a, P [a]) -> (forall a b, P [a; b]) ->
  (forall a b c l, P l -> P (a :: b :: c :: l)) ->
  forall l, P l.
Proof.
  intros H0 H1 H2 H3.
  assert (H : forall l, P l /\ (forall a, P (a :: l)) /\ (forall a b, P (a :: b :: l))).
  { induction l as [|x l (IH0 & IH1 & IH2)].
    - repeat split; auto.
    - repeat split; auto. }
  intros l. apply H.
Qed.

Lemma decode_encode (bs : list byte) : decode (encode bs) = bs.
Proof.
  unfold decode. induction bs as [|a|a b|a b c rest IH] using list_ind3.
  - reflexivity.
  - cbn [encode].
    rewrite sextets_cons by apply char_ok_sextet0.
    rewrite sextets_cons by apply char_ok_sextet1_last.
    cbn. now rewrite octet0_sextets_last.
  - cbn [encode].
    rewrite sextets_cons by apply char_ok_sextet0.
    rewrite sextets_cons by apply char_ok_sextet1.
    rewrite sextets_cons by apply char_ok_sextet2_last.
    cbn. now rewrite octet0_sextets, octet1_sextets_last.
  - cbn [encode].
    rewrite sextets_cons by apply char_ok_sextet0.
    rewrite sextets_cons by apply char_ok_sextet1.
    rewrite sextets_cons by apply char_ok_sextet2.
    rewrite sextets_cons by apply char_ok_sextet3.
    cbn [decode_groups]. rewrite IH.
    now rewrite octet0_sextets, octet1_sextets, octet2_sextets.
Qed.

Lemma sextets_skip (ch : ascii) (s1 s2 : string) :
  Ascii.eqb ch "="%char = false -> unbase64 ch = None ->
  sextets (s1 ++ String ch s2) = sextets (s1 ++ s2).
Proof.
  intros Hne Hnone. induction s1 as [|x s1 IH].
  - change (sextets (String ch s2) = sextets s2).
    cbn [sextets]. now rewrite Hne, Hnone.
  - change (sextets (String x (s1 ++ String ch s2))
            = sextets (String x (s1 ++ s2))).
    cbn [sextets]. now rewrite IH.
Qed.

End Base64Facts.

(* ===================================================================== *)
(** ** Text: what survives the store                                      *)
(* ===================================================================== *)

Section TextFacts.

Lemma isWellFormed_cons (u : N) (s : Text) :
  isWellFormed (u :: s)
  = if is_high_surrogate u then
      match s with
      | v :: s' => is_low_surrogate v && isWellFormed s'
      | [] => false
      end
    else negb (is_low_surrogate u) && isWellFormed s.
Proof. reflexivity. Qed.

Lemma toWellFormed_cons (u : N) (s : Text) :
  toWellFormed (u :: s)
  = if is_high_surrogate u then
      match s with
      | v :: s' =>
          if is_low_surrogate v then u :: v :: toWellFormed s'
          else 65533%N :: toWellFormed s
      | [] => [65533%N]
      end
    else if is_low_surrogate u then 65533%N :: toWellFormed s
    else u :: toWellFormed s.
Proof. destruct s; reflexivity. Qed.

(** Well-formed text is left as it is. *)
Lemma toWellFormed_id (s : Text) :
  isWellFormed s = true -> toWellFormed s = s.
Proof.
  assert (H : (isWellFormed s = true -> toWellFormed s = s) /\
              forall u, isWellFormed (u :: s) = true ->
                        toWellFormed (u :: s) = u :: s).
  { induction s as [|x s [IH0 IH1]].
    - split; [reflexivity|]. intros u.
      rewrite isWellFormed_cons, toWellFormed_cons.
      destruct (is_high_surrogate u); [discriminate|].
      destruct (is_low_surrogate u); [discriminate | reflexivity].
    - split; [apply IH1|]. intros u.
      rewrite isWellFormed_cons, toWellFormed_cons.
      destruct (is_high_surrogate u).
      + destruct (is_low_surrogate x); [|discriminate].
        cbn [andb]. intros Hs. now rewrite (IH0 Hs).
      + destruct (is_low_surrogate u); [discriminate|].
        cbn [negb andb]. intros Hs. now rewrite (IH1 x Hs). }
  apply H.
Qed.

(** What the store keeps is well-formed. *)
Lemma isWellFormed_toWellFormed (s : Text) :
  isWellFormed (toWellFormed s) = true.
Proof.
  assert (Hr : forall t, isWellFormed (65533%N :: t) = isWellFormed t)
    by reflexivity.
  assert (H : isWellFormed (toWellFormed s) = true /\
              forall u, isWellFormed (toWellFormed (u :: s)) = true).
  { induction s as [|x s [IH0 IH1]].
    - split; [reflexivity|]. intros u. rewrite toWellFormed_cons.
      destruct (is_high_surrogate u) eqn:Hh; [reflexivity|].
      destruct (is_low_surrogate u) eqn:Hl; [reflexivity|].
      rewrite isWellFormed_cons. now rewrite Hh, Hl.
    - split; [apply IH1|]. intros u. rewrite toWellFormed_cons.
      destruct (is_high_surrogate u) eqn:Hh.
      + destruct (is_low_surrogate x) eqn:Hl.
        * rewrite isWellFormed_cons. now rewrite Hh, Hl, IH0.
        * rewrite Hr. exact (IH1 x).
      + destruct (is_low_surrogate u) eqn:Hl.
        * rewrite Hr. exact (IH1 x).
        * rewrite isWellFormed_cons. rewrite Hh, Hl. exact (IH1 x). }
  apply H.
Qed.

(** A code unit below 256 is no surrogate, so the text of a [string] is
    well-formed. *)
Lemma text_isWellFormed (s : string) : isWellFormed (text s) = true.
Proof.
  unfold text. induction s as [|ch s IH]; [reflexivity|].
  cbn [list_ascii_of_string map isWellFormed].
  assert (Hb : (N_of_ascii ch < 256)%N) by apply N_ascii_bounded.
  assert (Hh : is_high_surrogate (N_of_ascii ch) = false).
  { unfold is_high_surrogate. apply andb_false_iff. left.
    apply N.leb_gt. lia. }
  assert (Hl : is_low_surrogate (N_of_ascii ch) = false).
  { unfold is_low_surrogate. apply andb_false_iff. left.
    apply N.leb_gt. lia. }
  now rewrite Hh, Hl, IH.
Qed.

End TextFacts.

(* ===================================================================== *)
(** ** Facts about the driver calls                                       *)
(* ===================================================================== *)

Section DriverFacts.

Import Mongoose.

Lemma truthy_nonempty (k : string) : k ≠ "" -> truthy k = true.
Proof.
  intros H. unfold truthy. apply negb_true_iff, String.eqb_neq. exact H.
Qed.

Lemma truthy_field_Some (f : option string) :
  truthy_field f = true -> exists s, f = Some s /\ truthy s = true.
Proof. destruct f as [s|]; cbn; [eauto | discriminate]. Qed.

(** [findOne] returns the head of what [find] returns. *)
Lemma find_head_filter {A} (p : A -> bool) (l : list A) :
  List.find p l = head (List.filter p l).
Proof.
  induction l as [|x l IH]; cbn; [reflexivity|].
  destruct (p x); [reflexivity | exact IH].
Qed.

Lemma update_first_None q f c :
  update_first q f c = None -> List.filter (matches q) c = [].
Proof.
  induction c as [|d c IH]; cbn; [reflexivity|].
  destruct (matches q d); [discriminate|].
  destruct (update_first q f c); [discriminate | auto].
Qed.

(** Replacing the first match by a document that matches too. *)
Lemma update_first_filter q doc c c' :
  matches q doc = true ->
  update_first q (fun _ => doc) c = Some c' ->
  List.filter (matches q) c' = doc :: tail (List.filter (matches q) c).
Proof.
  intros Hdoc. revert c'.
  induction c as [|d c IH]; cbn; intros c' H; [discriminate|].
  destruct (matches q d) eqn:Hd.
  - injection H as <-. cbn. now rewrite Hdoc.
  - destruct (update_first q (fun _ => doc) c) as [c''|]; [|discriminate].
    injection H as <-. cbn. rewrite Hd. now apply IH.
Qed.

(** Documents that a predicate [p] selects are left alone when [p]
    rejects both the documents matching [q] and their replacements. *)
Lemma update_first_other q f p c c' :
  (forall d, matches q d = true -> p d = false /\ p (f d) = false) ->
  update_first q f c = Some c' ->
  List.filter p c' = List.filter p c.
Proof.
  intros Hp. revert c'.
  induction c as [|d c IH]; cbn; intros c' H; [discriminate|].
  destruct (matches q d) eqn:Hd.
  - injection H as <-. cbn.
    destruct (Hp d Hd) as [-> ->]. reflexivity.
  - destruct (update_first q f c) as [c''|]; [|discriminate].
    injection H as <-. cbn. now rewrite (IH c'').
Qed.

Lemma filter_app_single {A} (p : A -> bool) (l : list A) (x : A) :
  List.filter p (l ++ [x]) = (List.filter p l ++ if p x then [x] else [])%list.
Proof. rewrite List.filter_app. cbn. now destruct (p x). Qed.

(** The state after [update(q, doc, {upsert: true, overwrite: true})],
    seen through the filter [q] itself. *)
Lemma upsert_filter q doc c :
  matches q doc = true ->
  List.filter (matches q)
    (snd (collection_update q doc {| upsert := true; overwrite := true |} c))
  = doc :: tail (List.filter (matches q) c).
Proof.
  intros Hdoc. unfold collection_update. cbn [overwrite upsert].
  destruct (update_first q (fun _ => doc) c) as [c'|] eqn:Hu; cbn [snd].
  - now apply update_first_filter.
  - rewrite filter_app_single, Hdoc.
    now rewrite (update_first_None _ _ _ Hu).
Qed.

(** ... and seen through a predicate that the write does not concern. *)
Lemma upsert_other q doc p c :
  (forall d, matches q d = true -> p d = false) ->
  p doc = false ->
  List.filter p
    (snd (collection_update q doc {| upsert := true; overwrite := true |} c))
  = List.filter p c.
Proof.
  intros Hq Hdoc. unfold collection_update. cbn [overwrite upsert].
  destruct (update_first q (fun _ => doc) c) as [c'|] eqn:Hu; cbn [snd].
  - apply (update_first_other q (fun _ => doc)); auto.
  - rewrite filter_app_single, Hdoc. apply List.app_nil_r.
Qed.

Lemma upsert_returns q doc c :
  fst (collection_update q doc {| upsert := true; overwrite := true |} c)
  = Return {| ok := true; n := 1 |}.
Proof.
  unfold collection_update. cbn [overwrite upsert].
  now destruct (update_first q (fun _ => doc) c).
Qed.

Lemma filter_remove q c :
  List.filter (matches q) (List.filter (fun d => negb (matches q d)) c) = [].
Proof.
  induction c as [|d c IH]; cbn; [reflexivity|].
  destruct (matches q d) eqn:Hd; cbn; [exact IH|].
  now rewrite Hd.
Qed.

Lemma filter_none_id {A} (p : A -> bool) (l : list A) :
  List.filter p l = [] -> List.filter (fun d => negb (p d)) l = l.
Proof.
  induction l as [|x l IH]; cbn; [reflexivity|].
  destruct (p x); cbn; [discriminate|]. intros H. now rewrite IH.
Qed.

(** What an upsert with [overwrite] can put into the collection. *)
Lemma update_first_In q doc c c' :
  update_first q (fun _ => doc) c = Some c' ->
  forall d, In d c' -> d = doc \/ In d c.
Proof.
  revert c'. induction c as [|x c IH]; cbn; intros c' H d Hd; [discriminate|].
  destruct (matches q x).
  - injection H as <-. destruct Hd as [<-|Hd]; [now left | now right; right].
  - destruct (update_first q (fun _ => doc) c) as [c''|]; [|discriminate].
    injection H as <-. destruct Hd as [<-|Hd]; [now right; left|].
    destruct (IH c'' eq_refl d Hd); [now left | now right; right].
Qed.

Lemma upsert_In q doc c d :
  In d (snd (collection_update q doc {| upsert := true; overwrite := true |} c)) ->
  d = doc \/ In d c.
Proof.
  unfold collection_update. cbn [overwrite upsert].
  destruct (update_first q (fun _ => doc) c) as [c'|] eqn:Hu; cbn [snd].
  - intros Hd. exact (update_first_In q doc c c' Hu d Hd).
  - rewrite List.in_app_iff. cbn. intuition auto.
Qed.



(** Writing the same document again changes nothing. *)
Lemma update_first_again q doc c c' :
  matches q doc = true ->
  update_first q (fun _ => doc) c = Some c' ->
  update_first q (fun _ => doc) c' = Some c'.
Proof.
  intros Hdoc. revert c'.
  induction c as [|x c IH]; cbn; intros c' H; [discriminate|].
  destruct (matches q x) eqn:Hx.
  - injection H as <-. cbn. now rewrite Hdoc.
  - destruct (update_first q (fun _ => doc) c) as [c''|]; [|discriminate].
    injection H as <-. cbn. rewrite Hx. now rewrite (IH c'').
Qed.

Lemma update_first_appended q doc c :
  matches q doc = true ->
  update_first q (fun _ => doc) c = None ->
  update_first q (fun _ => doc) (c ++ [doc])%list = Some (c ++ [doc])%list.
Proof.
  intros Hdoc. induction c as [|x c IH]; cbn; intros H.
  - now rewrite Hdoc.
  - destruct (matches q x); [discriminate|].
    destruct (update_first q (fun _ => doc) c); [discriminate|].
    now rewrite IH.
Qed.

Lemma upsert_again q doc c :
  matches q doc = true ->
  let opts := {| upsert := true; overwrite := true |} in
  snd (collection_update q doc opts (snd (collection_update q doc opts c)))
  = snd (collection_update q doc opts c).
Proof.
  intros Hdoc opts. unfold collection_update, opts. cbn [overwrite upsert].
  destruct (update_first q (fun _ => doc) c) as [c'|] eqn:Hu; cbn [snd].
  - now rewrite (update_first_again q doc c c' Hdoc Hu).
  - now rewrite (update_first_appended q doc c Hdoc Hu).
Qed.


Lemma filter_partition_length {A} (p : A -> bool) (l : list A) :
  length l
  = length (List.filter (fun x => negb (p x)) l) + length (List.filter p l).
Proof.
  induction l as [|x l IH]; cbn; [reflexivity|].
  destruct (p x); cbn; lia.
Qed.



End DriverFacts.

(* ===================================================================== *)
(** ** Facts about the wallet's filters and methods                       *)
(* ===================================================================== *)

Section WalletFacts.

Import Mongoose Wallet.

Lemma matches_by_name w k d :
  matches (by_name w k) d = true <-> name d = k /\ path d = namePrefix w.
Proof.
  unfold matches, by_name. cbn.
  rewrite andb_true_iff, !String.eqb_eq. intuition congruence.
Qed.

Lemma matches_by_path w d :
  matches (by_path w) d = true <-> path d = namePrefix w.
Proof.
  unfold matches, by_path. cbn. rewrite String.eqb_eq. intuition congruence.
Qed.

Lemma card_of_matches w k v d :
  card_of w k v = Some d -> matches (by_name w k) d = true.
Proof.
  intros H. apply matches_by_name.
  destruct v; cbn in H; try discriminate; injection H as <-; auto.
Qed.

(** [put] of an accepted value is the upsert of its card. *)
Lemma put_accepted w k v d c :
  k ≠ "" -> card_of w k v = Some d ->
  put w k v c
  = collection_update (by_name w k) d
      {| upsert := true; overwrite := true |} c.
Proof.
  intros Hk Hd. unfold put. rewrite (truthy_nonempty k Hk). cbn [negb].
  destruct v; cbn in Hd; try discriminate; injection Hd as <-; reflexivity.
Qed.

Lemma put_stored w k v d c :
  k ≠ "" -> card_of w k v = Some d ->
  stored w k (snd (put w k v c)) = d :: tail (stored w k c).
Proof.
  intros Hk Hd. rewrite (put_accepted w k v d c Hk Hd).
  apply upsert_filter. eapply card_of_matches; eauto.
Qed.

(** [get] reads the first document stored under the key. *)
Lemma get_found w k c d :
  k ≠ "" -> head (stored w k c) = Some d ->
  get w k c
  = match valueBase64 d with
    | Some b64 => (Return (JsBuffer (Base64.decode b64)), c)
    | None =>
        match valueString d with
        | Some s => (Return (JsString s), c)
        | None => (Throw (Error "Unkown type being stored"), c)
        end
    end.
Proof.
  intros Hk Hd. unfold get. rewrite (truthy_nonempty k Hk). cbn [negb].
  unfold bind, findOne. rewrite find_head_filter. fold (stored w k c).
  rewrite Hd. destruct (valueBase64 d); [reflexivity|].
  destruct (valueString d); reflexivity.
Qed.

Lemma get_missing w k c :
  k ≠ "" -> stored w k c = [] ->
  get w k c = (Throw (Error "The specified key does not exist"), c).
Proof.
  intros Hk Hd. unfold get. rewrite (truthy_nonempty k Hk). cbn [negb].
  unfold bind, findOne. rewrite find_head_filter. fold (stored w k c).
  now rewrite Hd.
Qed.

(** No method that reads changes the collection. *)
Lemma get_state w k c : snd (get w k c) = c.
Proof.
  unfold get. destruct (negb (truthy k)); [reflexivity|].
  unfold bind, findOne.
  destruct (List.find (matches (by_name w k)) c) as [d|]; [|reflexivity].
  destruct (valueBase64 d); [reflexivity|].
  destruct (valueString d); reflexivity.
Qed.



Lemma listNames_eq w c :
  listNames w c = (Return (map name (List.filter (matches (by_path w)) c)), c).
Proof. reflexivity. Qed.

(** A [put] leaves alone whatever a predicate selects outside the
    wallet's key. *)
Lemma put_other_filter w k v p c :
  (forall d, path d = namePrefix w -> name d = k -> p d = false) ->
  List.filter p (snd (put w k v c)) = List.filter p c.
Proof.
  intros Hp. unfold put. destruct (negb (truthy k)); [reflexivity|].
  destruct v; try reflexivity;
    (apply upsert_other;
     [intros d Hd; apply matches_by_name in Hd as [? ?]; now apply Hp
     | apply Hp; reflexivity]).
Qed.

(** A [put] either leaves the collection as it is or writes its card. *)
Lemma put_cases w k v c :
  snd (put w k v c) = c \/ (k ≠ "" /\ exists d, card_of w k v = Some d).
Proof.
  destruct (decide (k = "")) as [->|Hk]; [left; reflexivity|].
  destruct v; cbn [card_of]; eauto;
    left; unfold put; rewrite (truthy_nonempty k Hk); reflexivity.
Qed.

Lemma remove_eq w k c :
  k ≠ "" ->
  remove w k c
  = (Return {| ok := true; n := length (stored w k c) |},
     List.filter (fun d => negb (matches (by_name w k) d)) c).
Proof.
  intros Hk. unfold remove. now rewrite (truthy_nonempty k Hk).
Qed.

Lemma filter_nil_iff {A} (p : A -> bool) (l : list A) :
  List.filter p l = [] <-> forall x, In x l -> p x = false.
Proof.
  induction l as [|x l IH]; cbn.
  - split; [intros _ y [] | reflexivity].
  - destruct (p x) eqn:Hx.
    + split; [discriminate|]. intros H.
      specialize (H x (or_introl eq_refl)). congruence.
    + rewrite IH. split.
      * intros H y [<-|Hy]; auto.
      * intros H y Hy. apply H. now right.
Qed.

Lemma stored_nil_iff w k c :
  stored w k c = [] <->
  forall d, In d c -> ~ (name d = k /\ path d = namePrefix w).
Proof.
  unfold stored. rewrite filter_nil_iff. split; intros H d Hd.
  - rewrite <- matches_by_name. rewrite (H d Hd). discriminate.
  - specialize (H d Hd). rewrite <- matches_by_name in H.
    now destruct (matches (by_name w k) d).
Qed.

(** Two filters of the wallet select the same documents, or none in
    common. *)
Lemma by_name_same_or_disjoint w1 k1 w2 k2 :
  (forall d, matches (by_name w1 k1) d = matches (by_name w2 k2) d) \/
  (forall d, path d = namePrefix w1 -> name d = k1 ->
             matches (by_name w2 k2) d = false).
Proof.
  destruct (decide (k1 = k2 /\ namePrefix w1 = namePrefix w2)) as [[-> E]|N].
  - left. intros d. unfold matches, by_name. cbn. now rewrite E.
  - right. intros d Hp Hn.
    destruct (matches (by_name w2 k2) d) eqn:Hm; [|reflexivity].
    apply matches_by_name in Hm as [? ?]. exfalso. apply N. split; congruence.
Qed.

Lemma filter_ext_eq {A} (p q : A -> bool) (l : list A) :
  (forall x, p x = q x) -> List.filter p l = List.filter q l.
Proof.
  intros H. induction l as [|x l IH]; cbn; [reflexivity|].
  rewrite H, IH. reflexivity.
Qed.

Lemma length_filter_filter {A} (p q : A -> bool) (l : list A) :
  length (List.filter p (List.filter q l)) <= length (List.filter p l).
Proof.
  induction l as [|x l IH]; cbn; [lia|].
  destruct (q x); cbn; destruct (p x); cbn; lia.
Qed.

(** In such a state a key of a wallet has one document at most. *)
Lemma reachable_keys_unique c :
  reachable c -> forall w k, length (stored w k c) <= 1.
Proof.
  induction 1 as [|w0 k0 v c Hc IH|w0 k0 c Hc IH]; intros w k.
  - unfold stored. cbn. lia.
  - destruct (put_cases w0 k0 v c) as [->|(Hk0 & d & Hd)]; [apply IH|].
    destruct (by_name_same_or_disjoint w0 k0 w k) as [Hsame|Hdis].
    + unfold stored.
      rewrite <- (filter_ext_eq _ _ _ Hsame). fold (stored w0 k0 (snd (put w0 k0 v c))).
      rewrite (put_stored w0 k0 v d c Hk0 Hd).
      specialize (IH w0 k0). destruct (stored w0 k0 c) as [|x l]; [cbn; lia|].
      cbn [tail length] in *. lia.
    + unfold stored. rewrite put_other_filter by exact Hdis. apply IH.
  - destruct (decide (k0 = "")) as [->|Hk0]; [apply IH|].
    rewrite (remove_eq w0 k0 c Hk0). cbn [snd]. unfold stored.
    etransitivity; [apply length_filter_filter | apply IH].
Qed.

(** One turn of the loop of [getAll]. *)
Lemma getAll_loop_cons w env i key keys results c :
  getAll_loop w env i (key :: keys) results c
  = match get w key (env i c) with
    | (Return value, c') =>
        getAll_loop w env (S i) keys (<[key := value]> results) c'
    | (Throw e, c') => (Throw e, c')
    end.
Proof. reflexivity. Qed.

(** The loop over the first keys, then over the remaining ones. *)
Lemma getAll_loop_app w env pre rest :
  forall i results c m ci,
    getAll_loop w env i pre results c = (Return m, ci) ->
    getAll_loop w env i (pre ++ rest) results c
    = getAll_loop w env (i + length pre) rest m ci.
Proof.
  induction pre as [|key pre IH]; intros i results c m ci H.
  - cbn in H. injection H as <- <-. cbn [app length].
    now rewrite Nat.add_0_r.
  - cbn [app length]. rewrite getAll_loop_cons in *.
    destruct (get w key (env i c)) as [[value|e] c']; [|discriminate].
    rewrite (IH _ _ _ _ _ H). f_equal. lia.
Qed.

(** With nobody else writing, the loop fills the map with what [get]
    resolves with for each key, over what the map held before. *)
Lemma getAll_loop_quiet w keys :
  forall i (results : gmap string JsValue) c,
    (forall k, k ∈ keys -> exists v, fst (get w k c) = Return v) ->
    exists m : gmap string JsValue,
      getAll_loop w quiet i keys results c = (Return m, c) /\
      forall k v, m !! k = Some v <->
        (k ∈ keys /\ fst (get w k c) = Return v) \/
        ((k ∉ keys) /\ results !! k = Some v).
Proof.
  induction keys as [|key keys IH]; intros i results c Hall.
  - exists results. split; [reflexivity|].
    intros k v. split.
    + intros H. right. split; [apply not_elem_of_nil | exact H].
    + intros [[H _]|[_ H]]; [|exact H]. now apply elem_of_nil in H.
  - destruct (Hall key) as [v0 Hv0]; [apply elem_of_cons; now left|].
    destruct (IH (S i) (<[key := v0]> results) c) as (m & Hm & Hlook).
    { intros k Hk. apply Hall. apply elem_of_cons. now right. }
    exists m. split.
    + rewrite getAll_loop_cons. unfold quiet at 1.
      rewrite (surjective_pairing (get w key c)), Hv0, get_state. exact Hm.
    + intros k v. rewrite Hlook, elem_of_cons.
      destruct (decide (k = key)) as [->|Hne].
      * rewrite lookup_insert_eq, Hv0.
        destruct (decide (key ∈ keys)); intuition congruence.
      * rewrite lookup_insert_ne by congruence. intuition congruence.
Qed.

(** [get] of a non-empty key with no document of its name and prefix. *)
Lemma get_absent_key w k c :
  k ≠ "" ->
  (forall d, In d c -> ~ (name d = k /\ path d = namePrefix w)) ->
  get w k c = (Throw (Error "The specified key does not exist"), c).
Proof.
  intros Hk Habs. apply get_missing; [exact Hk|]. now apply stored_nil_iff.
Qed.

(** Where the documents of a collection come from after a write. *)
Lemma put_In w k v c d :
  In d (snd (put w k v c)) ->
  In d c \/ (k ≠ "" /\ card_of w k v = Some d).
Proof.
  destruct (put_cases w k v c) as [->|(Hk & doc & Hdoc)]; [now left|].
  rewrite (put_accepted w k v doc c Hk Hdoc). intros Hd.
  apply upsert_In in Hd as [->|Hd]; [right|left]; auto.
Qed.

Lemma remove_In w k c d : In d (snd (remove w k c)) -> In d c.
Proof.
  unfold remove. destruct (negb (truthy k)); [auto|].
  cbn [Mongoose.remove snd]. rewrite List.filter_In. tauto.
Qed.

Lemma stored_In w k c d :
  In d (stored w k c) <-> In d c /\ name d = k /\ path d = namePrefix w.
Proof. unfold stored. now rewrite List.filter_In, matches_by_name. Qed.

Lemma head_In {A} (l : list A) (x : A) : head l = Some x -> In x l.
Proof. destruct l; cbn; [discriminate|]. intros [= ->]. now left. Qed.

Lemma card_well_formed w k v d :
  k ≠ "" -> card_of w k v = Some d -> well_formed d = true.
Proof.
  intros Hk Hd. unfold well_formed.
  destruct v; cbn in Hd; try discriminate; injection Hd as <-; cbn;
    now rewrite (truthy_nonempty k Hk).
Qed.

Lemma well_formed_fields d :
  well_formed d = true ->
  name d ≠ "" /\
  ((exists b64, valueBase64 d = Some b64 /\ valueString d = None) \/
   (valueBase64 d = None /\ exists s, valueString d = Some s)).
Proof.
  unfold well_formed, truthy. intros H. apply andb_prop in H as [Hn Hf].
  split.
  - apply negb_true_iff, String.eqb_neq in Hn. exact Hn.
  - destruct (valueBase64 d), (valueString d); try discriminate; eauto.
Qed.

(** Wallets write well-formed documents only. *)
Lemma reachable_well_formed c :
  reachable c -> forall d, In d c -> well_formed d = true.
Proof.
  induction 1 as [|w k v c Hc IH|w k c Hc IH]; intros d Hd.
  - destruct Hd.
  - apply put_In in Hd as [Hd|[Hk Hcard]]; [now apply IH|].
    now apply (card_well_formed w k v).
  - apply remove_In in Hd. now apply IH.
Qed.

(** [get] of a key whose first document is well-formed resolves. *)
Lemma get_well_formed w k c d :
  k ≠ "" -> head (stored w k c) = Some d -> well_formed d = true ->
  exists v, get w k c = (Return v, c) /\ supported v.
Proof.
  intros Hk Hd Hwf. rewrite (get_found w k c d Hk Hd).
  apply well_formed_fields in Hwf as [_ [(b & Hb & Hs)|(Hb & s & Hs)]];
    rewrite Hb; [|rewrite Hs]; eexists; split; try reflexivity; constructor.
Qed.

Lemma contains_eq w k c :
  k ≠ "" ->
  contains w k c
  = (Return (match stored w k c with [] => false | _ :: _ => true end), c).
Proof.
  intros Hk. unfold contains. rewrite (truthy_nonempty k Hk). cbn [negb].
  unfold bind, findOne. rewrite find_head_filter. fold (stored w k c).
  now destruct (stored w k c).
Qed.

(** The names [listNames] returns. *)
Lemma names_elem w c k :
  k ∈ map name (List.filter (matches (by_path w)) c) <->
  exists d, In d c /\ name d = k /\ path d = namePrefix w.
Proof.
  rewrite list_elem_of_In, List.in_map_iff. split.
  - intros (d & Hn & Hd). apply List.filter_In in Hd as [Hd Hp].
    apply matches_by_path in Hp. eauto.
  - intros (d & Hd & Hn & Hp). exists d. split; [exact Hn|].
    apply List.filter_In. split; [exact Hd|]. now apply matches_by_path.
Qed.

Lemma stored_cons w k x c :
  stored w k (x :: c)
  = if matches (by_name w k) x then x :: stored w k c else stored w k c.
Proof. reflexivity. Qed.

Lemma names_NoDup w c :
  (forall k, length (stored w k c) <= 1) ->
  NoDup (map name (List.filter (matches (by_path w)) c)).
Proof.
  induction c as [|x c IH]; intros H; [constructor|].
  assert (Hc : forall k, length (stored w k c) <= 1).
  { intros k. specialize (H k). rewrite stored_cons in H.
    destruct (matches (by_name w k) x); cbn [length] in H; lia. }
  cbn [List.filter]. destruct (matches (by_path w) x) eqn:Hx; [|auto].
  cbn [map]. apply NoDup_cons. split; [|auto].
  intros Hin. apply names_elem in Hin as (d & Hd & Hn & Hp).
  specialize (H (name x)). rewrite stored_cons in H.
  apply matches_by_path in Hx.
  assert (Hm : matches (by_name w (name x)) x = true)
    by (apply matches_by_name; auto).
  rewrite Hm in H. cbn [length] in H.
  assert (Hs : In d (stored w (name x) c)) by (apply stored_In; auto).
  destruct (stored w (name x) c); [destruct Hs | cbn [length] in H; lia].
Qed.



(** The loop of [getAll] writes nothing of its own. *)
Lemma getAll_loop_state w keys :
  forall i results c, snd (getAll_loop w quiet i keys results c) = c.
Proof.
  induction keys as [|key keys IH]; intros i results c; [reflexivity|].
  rewrite getAll_loop_cons. unfold quiet at 1.
  pose proof (get_state w key c) as Hs.
  destruct (get w key c) as [[value|e] c']; cbn [snd] in Hs; subst c'.
  - unfold quiet in IH. apply IH.
  - reflexivity.
Qed.

(** With nobody else writing, the loop is rejected with the error of the
    first key whose [get] is. *)
Lemma getAll_loop_first_failure w pre key post e :
  forall i results c,
    (forall k, k ∈ pre -> exists v, fst (get w k c) = Return v) ->
    fst (get w key c) = Throw e ->
    getAll_loop w quiet i (pre ++ key :: post) results c = (Throw e, c).
Proof.
  intros i results c Hpre Hkey.
  destruct (getAll_loop_quiet w pre i results c Hpre) as (m & Hm & _).
  rewrite (getAll_loop_app w quiet pre (key :: post) i results c m c Hm).
  rewrite getAll_loop_cons. unfold quiet at 1.
  rewrite (surjective_pairing (get w key c)), Hkey, get_state. reflexivity.
Qed.


(** [get] of a key whose first document is the card of a supported value
    resolves with that value. *)
Lemma get_of_card w k v d c :
  k ≠ "" -> supported v -> well_formed_value v = true ->
  card_of w k v = Some d ->
  head (stored w k c) = Some d ->
  get w k c = (Return v, c).
Proof.
  intros Hk Hv Hwf Hd Hs. rewrite (get_found w k c d Hk Hs).
  destruct Hv; cbn in Hd, Hwf; injection Hd as <-; cbn.
  - now rewrite (toWellFormed_id s Hwf).
  - now rewrite decode_encode.
Qed.

(** The text [get] reads back after a [put] of a string: the string as
    the store keeps it. *)
Lemma get_after_put_text w k s c :
  k ≠ "" ->
  get w k (snd (put w k (JsString s) c))
  = (Return (JsString (toWellFormed s)), snd (put w k (JsString s) c)).
Proof.
  intros Hk.
  set (d := {| name := k; path := namePrefix w;
               valueBase64 := None; valueString := Some (toWellFormed s) |}).
  assert (Hd : card_of w k (JsString s) = Some d) by reflexivity.
  rewrite (get_found w k _ d Hk); [reflexivity|].
  now rewrite (put_stored w k _ d c Hk Hd).
Qed.

(** On a collection whose documents are well-formed every name listed
    has a [get] that resolves. *)
Lemma listed_get_resolves w c :
  (forall d, In d c -> well_formed d = true) ->
  forall k, k ∈ map name (List.filter (matches (by_path w)) c) ->
  exists v, fst (get w k c) = Return v /\ supported v.
Proof.
  intros Hwf k Hk. apply names_elem in Hk as (d & Hd & Hn & Hp).
  assert (Hin : In d (stored w k c)) by (apply stored_In; auto).
  destruct (stored w k c) as [|d' l] eqn:Hs; [destruct Hin|].
  assert (Hd' : In d' (stored w k c)) by (rewrite Hs; now left).
  apply stored_In in Hd' as (Hc' & Hn' & _).
  pose proof (Hwf d' Hc') as Hw.
  assert (Hne : k ≠ "").
  { apply well_formed_fields in Hw as [Hw _]. congruence. }
  destruct (get_well_formed w k c d' Hne) as (v & Hv & Hsup); auto.
  - now rewrite Hs.
  - exists v. now rewrite Hv.
Qed.

Lemma contains_state w k c : snd (contains w k c) = c.
Proof.
  unfold contains. destruct (negb (truthy k)); [reflexivity|].
  unfold bind, findOne.
  now destruct (List.find (matches (by_name w k)) c).
Qed.

Lemma getAll_state w c : snd (getAll w c) = c.
Proof.
  unfold getAll, getAll_under, bind. rewrite listNames_eq.
  apply getAll_loop_state.
Qed.


End WalletFacts.

(* ===================================================================== *)
(** ** Properties of the wallet                                           *)
(* ===================================================================== *)

Section Properties.

Import Mongoose Wallet Sample.

(** The base64 text of a few buffers, as Node prints them. *)
Example encode_123 : Base64.encode buffer123 = "AQID".
Proof. reflexivity. Qed.

Example encode_padding :
  Base64.encode [x4d] = "TQ==" /\ Base64.encode [x4d; x61] = "TWE=".
Proof. split; reflexivity. Qed.

Example decode_url_safe : Base64.decode "-_8" = Base64.decode "+/8=".
Proof. reflexivity. Qed.

(** C1, as the code has it. For a non-empty name [k] and a text string
    [s] that is well-formed UTF-16 (no surrogate outside a pair),
    [put k s] resolves and leaves, as the document found under
    [(k, prefix)], a card whose [valueString] is [s] and which has no
    [valueBase64]; the [get k] that follows resolves with [s] and leaves
    the collection as it is. *)
Theorem put_get_string (w : MongoDBWallet) (k : string) (s : Text)
    (c : Collection) :
  k ≠ "" -> isWellFormed s = true ->
  let c' := snd (put w k (JsString s) c) in
  (exists r, fst (put w k (JsString s) c) = Return r) /\
  (exists d, findOne (by_name w k) c' = (Return (Some d), c') /\
             valueString d = Some s /\ valueBase64 d = None) /\
  get w k c' = (Return (JsString s), c').
Proof.
  intros Hk Hwf c'.
  set (d := {| name := k; path := namePrefix w;
               valueBase64 := None; valueString := Some s |}).
  assert (Hd : card_of w k (JsString s) = Some d).
  { cbn. now rewrite (toWellFormed_id s Hwf). }
  assert (Hs : stored w k c' = d :: tail (stored w k c))
    by (apply put_stored; assumption).
  split; [|split].
  - rewrite (put_accepted w k _ d c Hk Hd), upsert_returns. eauto.
  - exists d. unfold findOne. rewrite find_head_filter.
    fold (stored w k c'). rewrite Hs. auto.
  - rewrite (get_found w k c' d Hk); [reflexivity|]. now rewrite Hs.
Qed.

Lemma put_get_string_witness :
  ("Batman" ≠ "" /\ isWellFormed quoteA = true) /\
  get walletAlpha "Batman"
      (snd (put walletAlpha "Batman" (JsString quoteA) twoPrefixes))
  = (Return (JsString quoteA),
     snd (put walletAlpha "Batman" (JsString quoteA) twoPrefixes)).
Proof.
  split; [split; [discriminate | reflexivity]|].
  apply (put_get_string walletAlpha "Batman" quoteA twoPrefixes);
    [discriminate | reflexivity].
Defined.

(** C1, as the specification words it, fails: a string with a surrogate
    that stands alone, which [put] accepts, does not come back from [get];
    U+FFFD has taken the surrogate's place. *)
Lemma put_get_lone_surrogate_counterexample :
  let c' := snd (put walletAlpha "Batman" (JsString loneSurrogate) []) in
  fst (get walletAlpha "Batman" c') = Return (JsString replaced) /\
  fst (get walletAlpha "Batman" c') <> Return (JsString loneSurrogate).
Proof. split; [reflexivity | discriminate]. Qed.

(** C2. For a non-empty name [k] and a byte buffer [b], [put k b] resolves
    and leaves, as the document found under [(k, prefix)], a card whose
    [valueBase64] is the base64 text of [b] and which has no [valueString];
    the [get k] that follows resolves with a buffer of exactly the bytes
    of [b], whatever these bytes are. *)
Theorem put_get_buffer (w : MongoDBWallet) (k : string) (b : list byte)
    (c : Collection) :
  k ≠ "" ->
  let c' := snd (put w k (JsBuffer b) c) in
  (exists r, fst (put w k (JsBuffer b) c) = Return r) /\
  (exists d, findOne (by_name w k) c' = (Return (Some d), c') /\
             valueBase64 d = Some (Base64.encode b) /\ valueString d = None) /\
  get w k c' = (Return (JsBuffer b), c').
Proof.
  intros Hk c'.
  set (d := {| name := k; path := namePrefix w;
               valueBase64 := Some (Base64.encode b); valueString := None |}).
  assert (Hd : card_of w k (JsBuffer b) = Some d) by reflexivity.
  assert (Hs : stored w k c' = d :: tail (stored w k c))
    by (apply put_stored; assumption).
  split; [|split].
  - rewrite (put_accepted w k _ d c Hk Hd), upsert_returns. eauto.
  - exists d. unfold findOne. rewrite find_head_filter.
    fold (stored w k c'). rewrite Hs. auto.
  - rewrite (get_found w k c' d Hk); [|now rewrite Hs].
    cbn [valueBase64 d]. now rewrite decode_encode.
Qed.

Lemma put_get_buffer_witness :
  "zipFile" ≠ "" /\
  get walletAlpha "zipFile"
      (snd (put walletAlpha "zipFile" (JsBuffer bufferRaw) []))
  = (Return (JsBuffer bufferRaw),
     snd (put walletAlpha "zipFile" (JsBuffer bufferRaw) [])).
Proof.
  split; [discriminate|].
  apply (put_get_buffer walletAlpha "zipFile" bufferRaw []).
  discriminate.
Defined.

(** C3, as the code has it. For a non-empty name [k] and two supported
    values [v1], [v2] of any kinds, [v2] being well-formed UTF-16 when it
    is a string, on a collection holding at most one document for
    [(k, prefix)], [put k v1] followed by [put k v2] leaves exactly one
    document for [(k, prefix)]; it carries the field of [v2]'s kind with
    [v2]'s encoding and not the other value field, and [get k] resolves
    with [v2]. *)
Theorem put_put_overwrites (w : MongoDBWallet) (k : string) (v1 v2 : JsValue)
    (c : Collection) :
  k ≠ "" -> supported v1 -> supported v2 ->
  well_formed_value v2 = true ->
  length (stored w k c) <= 1 ->
  let c1 := snd (put w k v1 c) in
  let c2 := snd (put w k v2 c1) in
  (exists r1 r2, fst (put w k v1 c) = Return r1 /\
                 fst (put w k v2 c1) = Return r2) /\
  (exists d, stored w k c2 = [d] /\
             name d = k /\ path d = namePrefix w /\
             match v2 with
             | JsBuffer b =>
                 valueBase64 d = Some (Base64.encode b) /\ valueString d = None
             | JsString s =>
                 valueString d = Some s /\ valueBase64 d = None
             | _ => False
             end) /\
  get w k c2 = (Return v2, c2).
Proof.
  intros Hk H1 H2 Hwf Hlen c1 c2.
  assert (A1 : exists d1, card_of w k v1 = Some d1)
    by (destruct H1; cbn; eauto).
  assert (A2 : exists d2, card_of w k v2 = Some d2)
    by (destruct H2; cbn; eauto).
  destruct A1 as [d1 Hd1], A2 as [d2 Hd2].
  assert (Hs1 : stored w k c1 = [d1]).
  { unfold c1. rewrite (put_stored w k v1 d1 c Hk Hd1).
    destruct (stored w k c) as [|x [|y l]]; cbn in *; [reflexivity..|lia]. }
  assert (Hs2 : stored w k c2 = [d2]).
  { unfold c2. rewrite (put_stored w k v2 d2 c1 Hk Hd2), Hs1. reflexivity. }
  split; [|split].
  - rewrite (put_accepted w k v1 d1 c Hk Hd1).
    rewrite (put_accepted w k v2 d2 c1 Hk Hd2).
    rewrite !upsert_returns. eauto.
  - exists d2. split; [exact Hs2|].
    destruct H2; cbn in Hd2, Hwf; injection Hd2 as <-; cbn; auto.
    rewrite (toWellFormed_id s Hwf). auto.
  - apply (get_of_card w k v2 d2 c2 Hk H2 Hwf Hd2). now rewrite Hs2.
Qed.

Lemma put_put_overwrites_witness :
  let c2 := snd (put walletAlpha "Batman" (JsBuffer buffer123)
                   (snd (put walletAlpha "Batman" (JsString quoteB)
                           twoPrefixes))) in
  ("Batman" ≠ "" /\ supported (JsString quoteB) /\
   supported (JsBuffer buffer123) /\
   well_formed_value (JsBuffer buffer123) = true /\
   length (stored walletAlpha "Batman" twoPrefixes) <= 1) /\
  stored walletAlpha "Batman" c2
  = [ {| name := "Batman"; path := "alpha";
         valueBase64 := Some "AQID"; valueString := None |} ] /\
  get walletAlpha "Batman" c2 = (Return (JsBuffer buffer123), c2).
Proof.
  assert (Hk : "Batman" ≠ "") by discriminate.
  assert (H1 : supported (JsString quoteB)) by constructor.
  assert (H2 : supported (JsBuffer buffer123)) by constructor.
  assert (Hw : well_formed_value (JsBuffer buffer123) = true) by reflexivity.
  assert (Hl : length (stored walletAlpha "Batman" twoPrefixes) <= 1)
    by (vm_compute; lia).
  pose proof (put_put_overwrites walletAlpha "Batman" _ _ twoPrefixes
                Hk H1 H2 Hw Hl) as (_ & _ & Hget).
  intros c2. split; [auto|]. split; [reflexivity | exact Hget].
Defined.

(** C3, as the specification words it, fails: when the second value is a
    string with a surrogate that stands alone, [get] does not resolve
    with it. *)
Lemma put_put_lone_surrogate_counterexample :
  let c2 := snd (put walletAlpha "Batman" (JsString loneSurrogate)
                   (snd (put walletAlpha "Batman" (JsBuffer buffer123) []))) in
  supported (JsBuffer buffer123) /\ supported (JsString loneSurrogate) /\
  fst (get walletAlpha "Batman" c2) <> Return (JsString loneSurrogate).
Proof. repeat split; try constructor. discriminate. Qed.

(** Without [overwrite] the update would keep the field of the former kind:
    this is what the option is there for. *)
Example merge_keeps_stale_field :
  let text := {| name := "Batman"; path := "alpha";
                 valueBase64 := None; valueString := Some quoteA |} in
  let binary := {| name := "Batman"; path := "alpha";
                   valueBase64 := Some "AQID"; valueString := None |} in
  snd (update (by_name walletAlpha "Batman") binary
         {| upsert := true; overwrite := false |} [text]) = [bothFields]
  /\ snd (update (by_name walletAlpha "Batman") binary
            {| upsert := true; overwrite := true |} [text]) = [binary].
Proof. split; reflexivity. Qed.

(** With two documents already stored under the key, which the wallet
    itself never produces, the second one stays. *)
Example put_replaces_first_match_only :
  let old := {| name := "Batman"; path := "alpha";
                valueBase64 := None; valueString := Some quoteA |} in
  stored walletAlpha "Batman"
    (snd (put walletAlpha "Batman" (JsString quoteB) [old; old]))
  = [ {| name := "Batman"; path := "alpha";
         valueBase64 := None; valueString := Some quoteB |}; old ].
Proof. reflexivity. Qed.

(** C4, as the code has it. For a non-empty name [k] and a value that is
    neither a buffer nor a string, [put k value] is rejected with an
    [Error] whose message is spelled "Unkown type being stored", and the
    collection is left exactly as it was. *)
Theorem put_rejects_other_types (w : MongoDBWallet) (k : string)
    (value : JsValue) (c : Collection) :
  k ≠ "" -> accepted value = false ->
  put w k value c = (Throw (Error "Unkown type being stored"), c).
Proof.
  intros Hk Hv. unfold put. rewrite (truthy_nonempty k Hk). cbn [negb].
  destruct value; cbn in Hv; try discriminate; reflexivity.
Qed.

Lemma put_rejects_other_types_witness :
  ("ThePenguin" ≠ "" /\ accepted (JsObject "Umbrella") = false) /\
  put walletAlpha "ThePenguin" (JsObject "Umbrella") twoPrefixes
  = (Throw (Error "Unkown type being stored"), twoPrefixes).
Proof.
  split; [split; [discriminate | reflexivity]|].
  apply (put_rejects_other_types walletAlpha "ThePenguin");
    [discriminate | reflexivity].
Defined.

(** C4, as the specification words it, fails: the message of the error
    that rejects an instance of another class is not
    "Unknown type being stored". *)
Lemma put_unknown_type_message_counterexample :
  ~ (exists e c',
       put walletAlpha "ThePenguin" (JsObject "Umbrella") [] = (Throw e, c')
       /\ message e = "Unknown type being stored").
Proof.
  intros (e & c' & H & Hm). cbv in H. injection H as <- _.
  discriminate Hm.
Qed.



(** C7. For a non-empty name [k] with no document of name [k] and path
    [prefix] in the collection, [get k] is rejected with an error whose
    message is "The specified key does not exist", and the collection is
    the one it was. *)
Theorem get_absent_rejects (w : MongoDBWallet) (k : string) (c : Collection) :
  k ≠ "" ->
  (forall d, In d c -> ~ (name d = k /\ path d = namePrefix w)) ->
  get w k c = (Throw (Error "The specified key does not exist"), c).
Proof.
  intros Hk Habs. now apply get_absent_key.
Qed.

Lemma get_absent_rejects_witness :
  "nonexistant" ≠ "" /\
  get walletAlpha "nonexistant" twoPrefixes
  = (Throw (Error "The specified key does not exist"), twoPrefixes).
Proof.
  split; [discriminate|].
  apply (get_absent_rejects walletAlpha "nonexistant" twoPrefixes);
    [discriminate|].
  intros d Hd [Hn _]. cbn in Hd.
  destruct Hd as [<-|[<-|[]]]; discriminate Hn.
Defined.

(** C8. For a non-empty name [k], [remove k] resolves; afterwards no
    document of name [k] and path [prefix] is left and every other document
    is still there; when there was none to begin with the collection is
    unchanged; and a second [remove k] resolves too, changing nothing. *)
Theorem remove_idempotent (w : MongoDBWallet) (k : string) (c : Collection) :
  k ≠ "" ->
  let c' := snd (remove w k c) in
  (exists r, fst (remove w k c) = Return r) /\
  stored w k c' = [] /\
  (forall d, In d c' <-> In d c /\ ~ (name d = k /\ path d = namePrefix w)) /\
  (stored w k c = [] -> c' = c) /\
  (exists r', remove w k c' = (Return r', c')).
Proof.
  intros Hk c'. unfold c'. rewrite (remove_eq w k c Hk). cbn [fst snd].
  assert (Hgone :
    stored w k (List.filter (fun d => negb (matches (by_name w k) d)) c) = [])
    by apply filter_remove.
  split; [eauto|]. split; [exact Hgone|]. split; [|split].
  - intros d. rewrite List.filter_In, negb_true_iff, <- matches_by_name.
    destruct (matches (by_name w k) d); intuition congruence.
  - intros Hnone. now apply filter_none_id.
  - rewrite (remove_eq w k _ Hk). rewrite Hgone.
    rewrite (filter_none_id _ _ Hgone). eauto.
Qed.

Lemma remove_idempotent_witness :
  "nonexistant" ≠ "" /\
  snd (remove walletAlpha "nonexistant" twoPrefixes) = twoPrefixes /\
  exists r, fst (remove walletAlpha "nonexistant" twoPrefixes) = Return r.
Proof.
  assert (Hk : "nonexistant" ≠ "") by discriminate.
  destruct (remove_idempotent walletAlpha "nonexistant" twoPrefixes Hk)
    as (Hr & _ & _ & Hsame & _).
  split; [exact Hk|]. split; [|exact Hr].
  apply Hsame. reflexivity.
Defined.

(** C9. The constructor checks its argument in a fixed order, each check
    with a message of its own: no configuration at all; then no URI; then
    no collection name; then no name prefix. A configuration with the
    three fields constructs a wallet whose prefix is the one configured. *)
Theorem constructor_validates_in_order :
  constructor None = Throw (Error "Need configuration") /\
  (forall o, truthy_field (Options.uri o) = false ->
     constructor (Some o) = Throw (Error "Need an URI to connect to MongoDB")) /\
  (forall o, truthy_field (Options.uri o) = true ->
     truthy_field (Options.collectionName o) = false ->
     constructor (Some o)
     = Throw (Error "Need a collection name for the wallet")) /\
  (forall o, truthy_field (Options.uri o) = true ->
     truthy_field (Options.collectionName o) = true ->
     truthy_field (Options.namePrefix o) = false ->
     constructor (Some o) = Throw (Error "Need a namePrefix in options")) /\
  (forall o, truthy_field (Options.uri o) = true ->
     truthy_field (Options.collectionName o) = true ->
     truthy_field (Options.namePrefix o) = true ->
     exists p, Options.namePrefix o = Some p /\
       constructor (Some o)
       = Return {| mongodbConfig := o; namePrefix := p |}) /\
  NoDup [ "Need configuration"; "Need an URI to connect to MongoDB";
          "Need a collection name for the wallet";
          "Need a namePrefix in options" ].
Proof.
  split; [reflexivity|].
  split; [|split; [|split; [|split]]].
  - intros o Hu. unfold constructor. now rewrite Hu.
  - intros o Hu Hc. unfold constructor. now rewrite Hu, Hc.
  - intros o Hu Hc Hp. unfold constructor. rewrite Hu, Hc. cbn [negb].
    destruct (Options.namePrefix o) as [p|]; [|reflexivity].
    cbn in Hp. now rewrite Hp.
  - intros o Hu Hc Hp. unfold constructor. rewrite Hu, Hc. cbn [negb].
    apply truthy_field_Some in Hp as (p & -> & Hp).
    exists p. now rewrite Hp.
  - apply (bool_decide_unpack _). vm_compute. reflexivity.
Qed.

Lemma constructor_validates_in_order_witness :
  constructor (Some {| Options.uri := None;
                       Options.collectionName := None;
                       Options.namePrefix := None;
                       Options.options := [] |})
  = Throw (Error "Need an URI to connect to MongoDB") /\
  constructor (Some {| Options.uri := Some "mongodb://localhost:27017/w";
                       Options.collectionName := None;
                       Options.namePrefix := None;
                       Options.options := [] |})
  = Throw (Error "Need a collection name for the wallet") /\
  constructor (Some {| Options.uri := Some "mongodb://localhost:27017/w";
                       Options.collectionName := Some "testWallet";
                       Options.namePrefix := None;
                       Options.options := [] |})
  = Throw (Error "Need a namePrefix in options") /\
  exists p, constructor (Some (config "alpha"))
            = Return {| mongodbConfig := config "alpha"; namePrefix := p |}.
Proof.
  destruct constructor_validates_in_order as (_ & H1 & H2 & H3 & H4 & _).
  split; [apply H1; reflexivity|].
  split; [apply H2; reflexivity|].
  split; [apply H3; reflexivity|].
  destruct (H4 (config "alpha")) as (p & _ & Hp); [reflexivity..|].
  exists p. exact Hp.
Defined.

(** C10. When the document found for [(k, prefix)] has a [valueBase64]
    field, [get k] resolves with the bytes decoded from it, whether or not
    a [valueString] field is there too; and [get k] is rejected by the
    unknown-type branch exactly when the document has neither field. *)
Theorem get_prefers_base64 (w : MongoDBWallet) (k : string) (c : Collection)
    (d : Document) :
  k ≠ "" ->
  findOne (by_name w k) c = (Return (Some d), c) ->
  (forall b64, valueBase64 d = Some b64 ->
     get w k c = (Return (JsBuffer (Base64.decode b64)), c)) /\
  (get w k c = (Throw (Error "Unkown type being stored"), c) <->
   valueBase64 d = None /\ valueString d = None).
Proof.
  intros Hk Hfind.
  assert (Hd : head (stored w k c) = Some d).
  { unfold findOne in Hfind. rewrite find_head_filter in Hfind.
    now injection Hfind. }
  rewrite (get_found w k c d Hk Hd). split.
  - intros b64 ->. reflexivity.
  - destruct (valueBase64 d) as [b64|]; [|destruct (valueString d) as [s|]];
      split; try (intros [? ?]); try discriminate; auto.
Qed.

Lemma get_prefers_base64_witness :
  "Batman" ≠ "" /\
  get walletAlpha "Batman" [bothFields]
  = (Return (JsBuffer buffer123), [bothFields]) /\
  get walletAlpha "Batman" [noField]
  = (Throw (Error "Unkown type being stored"), [noField]).
Proof.
  assert (Hk : "Batman" ≠ "") by discriminate.
  destruct (get_prefers_base64 walletAlpha "Batman" [bothFields] bothFields
              Hk eq_refl) as [Hboth _].
  destruct (get_prefers_base64 walletAlpha "Batman" [noField] noField
              Hk eq_refl) as [_ Hnone].
  split; [exact Hk|]. split.
  - exact (Hboth "AQID" eq_refl).
  - apply Hnone. split; reflexivity.
Defined.

(** C6. [getAll] is [listNames] followed by one [get] per name listed.
    (a) When each of these [get]s resolves, [getAll] resolves with a map
    that has an entry for exactly the names listed, each with the value its
    [get] resolves with, and the collection is untouched. (b) When nothing
    is listed the map is empty. (c) When, by the time its [get] runs,
    another user of the collection has left no document for a listed
    non-empty key, the error "The specified key does not exist" of that
    [get] is what [getAll] is rejected with. *)
Theorem getAll_lists_then_gets (w : MongoDBWallet) (c : Collection) :
  (forall names,
     fst (listNames w c) = Return names ->
     (forall k, k ∈ names -> exists v, fst (get w k c) = Return v) ->
     exists m : gmap string JsValue,
       getAll w c = (Return m, c) /\
       forall k v, m !! k = Some v <->
                   k ∈ names /\ fst (get w k c) = Return v) /\
  (fst (listNames w c) = Return [] -> getAll w c = (Return ∅, c)) /\
  (forall env pre key post m ci,
     fst (listNames w c) = Return (pre ++ key :: post)%list ->
     getAll_loop w env 0 pre ∅ c = (Return m, ci) ->
     key ≠ "" ->
     (forall d, In d (env (length pre) ci) ->
                ~ (name d = key /\ path d = namePrefix w)) ->
     fst (getAll_under env w c)
     = Throw (Error "The specified key does not exist")).
Proof.
  split; [|split].
  - intros names Hnames Hall.
    rewrite listNames_eq in Hnames. injection Hnames as Hnames.
    destruct (getAll_loop_quiet w names 0 ∅ c Hall) as (m & Hm & Hlook).
    exists m. split.
    + unfold getAll, getAll_under, bind. rewrite listNames_eq, Hnames.
      exact Hm.
    + intros k v. rewrite Hlook, lookup_empty. intuition discriminate.
  - intros Hnames.
    rewrite listNames_eq in Hnames. injection Hnames as Hnames.
    unfold getAll, getAll_under, bind. rewrite listNames_eq, Hnames.
    reflexivity.
  - intros env pre key post m ci Hnames Hpre Hkey Habs.
    rewrite listNames_eq in Hnames. injection Hnames as Hnames.
    unfold getAll_under, bind. rewrite listNames_eq, Hnames.
    rewrite (getAll_loop_app w env pre (key :: post) 0 ∅ c m ci Hpre).
    rewrite getAll_loop_cons. cbn [Nat.add].
    now rewrite (get_absent_key w key (env (length pre) ci) Hkey Habs).
Qed.

Lemma getAll_lists_then_gets_witness :
  (exists m : gmap string JsValue,
     getAll walletAlpha twoCards = (Return m, twoCards) /\
     m !! "Batman-Original" = Some (JsString quoteA) /\
     m !! "Batman-Reloaded" = Some (JsString quoteB) /\
     m !! "Batman" = None) /\
  getAll walletAlpha [] = (Return ∅, []) /\
  fst (getAll_under (removes_before 1 "Batman-Reloaded") walletAlpha twoCards)
  = Throw (Error "The specified key does not exist").
Proof.
  destruct (getAll_lists_then_gets walletAlpha twoCards) as (Ha & _ & Hc).
  destruct (getAll_lists_then_gets walletAlpha []) as (_ & Hb & _).
  split; [|split].
  - destruct (Ha ["Batman-Original"; "Batman-Reloaded"] eq_refl)
      as (m & Hm & Hlook).
    { intros k Hk. apply list_elem_of_In in Hk. cbn in Hk.
      destruct Hk as [<-|[<-|[]]]; eexists; reflexivity. }
    exists m. split; [exact Hm|]. split; [|split].
    + apply Hlook. split; [|reflexivity].
      apply list_elem_of_In. cbn. auto.
    + apply Hlook. split; [|reflexivity].
      apply list_elem_of_In. cbn. auto.
    + destruct (m !! "Batman") as [v|] eqn:Hv; [|reflexivity].
      apply Hlook in Hv as [Hin _]. apply list_elem_of_In in Hin. cbn in Hin.
      destruct Hin as [Hin|[Hin|[]]]; discriminate Hin.
  - apply Hb. reflexivity.
  - apply (Hc (removes_before 1 "Batman-Reloaded")
              ["Batman-Original"] "Batman-Reloaded" []
              {["Batman-Original" := JsString quoteA]} twoCards).
    + reflexivity.
    + reflexivity.
    + discriminate.
    + intros d Hd [Hn _]. cbn in Hd.
      destruct Hd as [<-|[]]. discriminate Hn.
Defined.

(** The scenario of the test suite: two puts under one key, then the
    reads. *)
Example batman_scenario :
  let c1 := snd (put walletAlpha "Batman" (JsString quoteA) []) in
  let c2 := snd (put walletAlpha "Batman" (JsString quoteB) c1) in
  fst (get walletAlpha "Batman" c2) = Return (JsString quoteB) /\
  fst (listNames walletAlpha c2) = Return ["Batman"] /\
  fst (contains walletAlpha "Batman" c2) = Return true /\
  fst (contains walletBeta "Batman" c2) = Return false /\
  fst (put walletAlpha "" (JsString quoteA) c2)
  = Throw (Error "Name must be specified").
Proof. repeat split; reflexivity. Qed.

(* --------------------------------------------------------------------- *)
(** *** Further properties of the methods                                 *)
(* --------------------------------------------------------------------- *)

(** X1. Called with an empty name, [put], [get], [remove] and [contains]
    are each rejected with "Name must be specified" before anything else
    happens: whatever the value is, supported or not, and without a
    change to the collection. *)
Theorem empty_name_rejected (w : MongoDBWallet) (value : JsValue)
    (c : Collection) :
  put w "" value c = (Throw (Error "Name must be specified"), c) /\
  get w "" c = (Throw (Error "Name must be specified"), c) /\
  remove w "" c = (Throw (Error "Name must be specified"), c) /\
  contains w "" c = (Throw (Error "Name must be specified"), c).
Proof. repeat split; reflexivity. Qed.



(** X3. For a non-empty name [k], [contains k] resolves with [false]
    exactly when [get k] is rejected with "The specified key does not
    exist". *)
Theorem contains_false_iff_get_missing (w : MongoDBWallet) (k : string)
    (c : Collection) :
  k ≠ "" ->
  (fst (contains w k c) = Return false <->
   fst (get w k c) = Throw (Error "The specified key does not exist")).
Proof.
  intros Hk. rewrite (contains_eq w k c Hk). cbn [fst].
  destruct (stored w k c) as [|d l] eqn:Hs.
  - rewrite (get_missing w k c Hk Hs). tauto.
  - rewrite (get_found w k c d Hk) by now rewrite Hs.
    destruct (valueBase64 d); [|destruct (valueString d)]; cbn [fst];
      split; discriminate.
Qed.

Lemma contains_false_iff_get_missing_witness :
  "Joker" ≠ "" /\
  fst (get walletAlpha "Joker" twoPrefixes)
  = Throw (Error "The specified key does not exist").
Proof.
  split; [discriminate|].
  apply (contains_false_iff_get_missing walletAlpha "Joker" twoPrefixes);
    [discriminate | reflexivity].
Defined.



(** X5. After [remove k] with a non-empty name, [contains k] resolves
    with [false], [get k] is rejected with "The specified key does not
    exist" and [listNames] does not list [k], even when several documents
    were stored under the key. *)
Theorem remove_makes_key_absent (w : MongoDBWallet) (k : string)
    (c : Collection) :
  k ≠ "" ->
  let c' := snd (remove w k c) in
  contains w k c' = (Return false, c') /\
  get w k c' = (Throw (Error "The specified key does not exist"), c') /\
  exists names, fst (listNames w c') = Return names /\ k ∉ names.
Proof.
  intros Hk c'.
  assert (Hs : stored w k c' = []).
  { unfold c'. rewrite (remove_eq w k c Hk). apply filter_remove. }
  split; [|split].
  - rewrite (contains_eq w k c' Hk), Hs. reflexivity.
  - now apply get_missing.
  - eexists. split; [rewrite listNames_eq; reflexivity|].
    intros Hin. apply names_elem in Hin as (d & Hd).
    apply stored_In in Hd. rewrite Hs in Hd. destruct Hd.
Qed.

Lemma remove_makes_key_absent_witness :
  "Batman" ≠ "" /\
  fst (contains walletAlpha "Batman"
         (snd (remove walletAlpha "Batman" [bothFields; noField])))
  = Return false.
Proof.
  assert (Hk : "Batman" ≠ "") by discriminate.
  destruct (remove_makes_key_absent walletAlpha "Batman"
              [bothFields; noField] Hk) as (Hc & _ & _).
  split; [exact Hk|]. now rewrite Hc.
Defined.


(** X7. On a collection that wallets alone have written to, [listNames]
    lists no name twice. *)
Theorem listNames_no_duplicates (w : MongoDBWallet) (c : Collection) :
  reachable c ->
  exists names, listNames w c = (Return names, c) /\ NoDup names.
Proof.
  intros Hc. eexists. split; [apply listNames_eq|].
  apply names_NoDup. intros k. now apply reachable_keys_unique.
Qed.

Lemma listNames_no_duplicates_witness :
  reachable afterPuts /\
  exists names,
    listNames walletAlpha afterPuts = (Return names, afterPuts) /\
    NoDup names.
Proof.
  assert (Hr : reachable afterPuts) by (repeat constructor).
  split; [exact Hr|].
  exact (listNames_no_duplicates walletAlpha afterPuts Hr).
Defined.

(** X8. Every document of a collection that wallets alone have written
    to has a non-empty name and exactly one of the two value fields. *)
Theorem wallet_documents_well_formed (c : Collection) :
  reachable c ->
  forall d, In d c ->
    name d ≠ "" /\
    ((exists b64, valueBase64 d = Some b64 /\ valueString d = None) \/
     (valueBase64 d = None /\ exists s, valueString d = Some s)).
Proof.
  intros Hc d Hd. apply well_formed_fields.
  now apply (reachable_well_formed c).
Qed.

Lemma wallet_documents_well_formed_witness :
  reachable afterPuts /\
  forall d, In d afterPuts -> name d ≠ "".
Proof.
  assert (Hr : reachable afterPuts) by (repeat constructor).
  split; [exact Hr|]. intros d Hd.
  apply (wallet_documents_well_formed afterPuts Hr d Hd).
Defined.

(** X9. On a collection that wallets alone have written to, [getAll]
    resolves and leaves the collection as it is: the map has as many
    entries as [listNames] lists names, one for each of them, and each
    value is the string or buffer that [get] resolves with for the name;
    the defensive errors of [get] cannot occur. *)
Theorem getAll_of_wallet_collection (w : MongoDBWallet) (c : Collection) :
  reachable c ->
  exists names (m : gmap string JsValue),
    fst (listNames w c) = Return names /\
    getAll w c = (Return m, c) /\
    size m = length names /\
    (forall k, k ∈ names <-> is_Some (m !! k)) /\
    (forall k v, m !! k = Some v ->
                 fst (get w k c) = Return v /\ supported v).
Proof.
  intros Hc.
  set (names := map name (List.filter (matches (by_path w)) c)).
  assert (Hall : forall k, k ∈ names ->
                   exists v, fst (get w k c) = Return v /\ supported v).
  { apply listed_get_resolves. now apply reachable_well_formed. }
  destruct (getAll_loop_quiet w names 0 ∅ c) as (m & Hm & Hlook).
  { intros k Hk. destruct (Hall k Hk) as (v & Hv & _). eauto. }
  assert (Hlook' : forall k v, m !! k = Some v <->
                     k ∈ names /\ fst (get w k c) = Return v).
  { intros k v. rewrite Hlook, lookup_empty. intuition discriminate. }
  assert (Hdom : forall k, k ∈ names <-> is_Some (m !! k)).
  { intros k. split.
    - intros Hk. destruct (Hall k Hk) as (v & Hv & _). exists v.
      apply Hlook'. auto.
    - intros [v Hv]. now apply Hlook' in Hv. }
  exists names, m. split; [reflexivity|]. split; [exact Hm|].
  split; [|split; [exact Hdom|]].
  - rewrite <- size_dom.
    assert (Hset : dom m = list_to_set names).
    { apply set_eq. intros k.
      rewrite elem_of_dom, elem_of_list_to_set. symmetry. apply Hdom. }
    rewrite Hset. apply size_list_to_set.
    apply names_NoDup. intros k. now apply reachable_keys_unique.
  - intros k v Hv. apply Hlook' in Hv as [Hk Hv]. split; [exact Hv|].
    destruct (Hall k Hk) as (v' & Hv' & Hsup). congruence.
Qed.

Lemma getAll_of_wallet_collection_witness :
  reachable afterPuts /\
  exists m : gmap string JsValue,
    getAll walletAlpha afterPuts = (Return m, afterPuts) /\ size m = 2.
Proof.
  assert (Hr : reachable afterPuts) by (repeat constructor).
  destruct (getAll_of_wallet_collection walletAlpha afterPuts Hr)
    as (names & m & Hn & Hm & Hsize & _).
  split; [exact Hr|]. exists m. split; [exact Hm|].
  rewrite Hsize. injection Hn as <-. reflexivity.
Defined.







(** X13. For a non-empty name [k], [remove k] resolves with a write
    result that counts the documents it deleted, which are all those
    stored under [(k, prefix)]: the collection shrinks by that number,
    which is at most one on a collection that wallets alone have written
    to. *)
Theorem remove_counts_deleted (w : MongoDBWallet) (k : string)
    (c : Collection) :
  k ≠ "" ->
  exists r,
    fst (remove w k c) = Return r /\
    n r = length (stored w k c) /\
    length c = length (snd (remove w k c)) + n r /\
    (reachable c -> n r <= 1).
Proof.
  intros Hk. rewrite (remove_eq w k c Hk). cbn [fst snd].
  eexists. split; [reflexivity|]. cbn [n].
  split; [reflexivity|]. split.
  - apply filter_partition_length.
  - intros Hc. now apply reachable_keys_unique.
Qed.

Lemma remove_counts_deleted_witness :
  "Batman" ≠ "" /\
  exists r, fst (remove walletAlpha "Batman" [bothFields; noField]) = Return r
            /\ n r = 2.
Proof.
  assert (Hk : "Batman" ≠ "") by discriminate.
  destruct (remove_counts_deleted walletAlpha "Batman" [bothFields; noField] Hk)
    as (r & Hr & Hn & _).
  split; [exact Hk|]. exists r. split; [exact Hr|]. rewrite Hn. reflexivity.
Defined.

(** X14. A [String] object is stored exactly as the primitive string of
    the same text is, and [get] gives a primitive string back: the text
    with U+FFFD in the place of every surrogate that stands alone, which
    is the text itself when it is well-formed UTF-16. *)
Theorem put_get_string_object (w : MongoDBWallet) (k : string) (s : Text)
    (c : Collection) :
  k ≠ "" ->
  let c' := snd (put w k (JsStringObject s) c) in
  put w k (JsStringObject s) c = put w k (JsString s) c /\
  get w k c' = (Return (JsString (toWellFormed s)), c') /\
  (isWellFormed s = true -> get w k c' = (Return (JsString s), c')).
Proof.
  intros Hk c'.
  assert (Hg : get w k c' = (Return (JsString (toWellFormed s)), c'))
    by apply (get_after_put_text w k s c Hk).
  split; [reflexivity|]. split; [exact Hg|].
  intros Hwf. rewrite Hg. now rewrite (toWellFormed_id s Hwf).
Qed.

Lemma put_get_string_object_witness :
  "Batman" ≠ "" /\
  fst (get walletAlpha "Batman"
         (snd (put walletAlpha "Batman" (JsStringObject quoteA) [])))
  = Return (JsString quoteA) /\
  fst (get walletAlpha "Batman"
         (snd (put walletAlpha "Batman" (JsStringObject loneSurrogate) [])))
  = Return (JsString replaced).
Proof.
  assert (Hk : "Batman" ≠ "") by discriminate.
  destruct (put_get_string_object walletAlpha "Batman" quoteA [] Hk)
    as (_ & _ & Hg).
  destruct (put_get_string_object walletAlpha "Batman" loneSurrogate [] Hk)
    as (_ & Hl & _).
  split; [exact Hk|]. split.
  - now rewrite (Hg eq_refl).
  - now rewrite Hl.
Defined.

(** X15. Whenever the constructor returns a wallet, a configuration was
    given whose URI, collection name and name prefix are all present and
    non-empty; the wallet keeps that configuration, and its prefix is the
    configured one, hence never empty. *)
Theorem constructor_result (options : option Options.t)
    (w : MongoDBWallet) :
  constructor options = Return w ->
  options = Some (mongodbConfig w) /\
  truthy_field (Options.uri (mongodbConfig w)) = true /\
  truthy_field (Options.collectionName (mongodbConfig w)) = true /\
  Options.namePrefix (mongodbConfig w) = Some (namePrefix w) /\
  namePrefix w ≠ "".
Proof.
  unfold constructor. destruct options as [o|]; [|discriminate].
  destruct (truthy_field (Options.uri o)) eqn:Hu; [|discriminate].
  destruct (truthy_field (Options.collectionName o)) eqn:Hc; [|discriminate].
  cbn [negb]. destruct (Options.namePrefix o) as [p|] eqn:Hp; [|discriminate].
  destruct (truthy p) eqn:Ht; [|discriminate]. cbn [negb].
  intros [= <-]. cbn. repeat split; auto.
  unfold truthy in Ht. now apply negb_true_iff, String.eqb_neq in Ht.
Qed.

Lemma constructor_result_witness :
  constructor (Some (config "alpha")) = Return walletAlpha /\
  namePrefix walletAlpha ≠ "".
Proof.
  split; [reflexivity|].
  apply (constructor_result (Some (config "alpha")) walletAlpha).
  reflexivity.
Defined.

(** X16. Putting the same value under the same name a second time leaves
    the collection as the first [put] left it, and the second call is
    rejected exactly when the first one was, with the same error. *)
Theorem put_twice_same (w : MongoDBWallet) (k : string) (value : JsValue)
    (c : Collection) :
  let c' := snd (put w k value c) in
  snd (put w k value c') = c' /\
  forall e, fst (put w k value c') = Throw e <->
            fst (put w k value c) = Throw e.
Proof.
  intros c'. unfold c'.
  destruct (put_cases w k value c) as [Hsame|(Hk & d & Hd)].
  - rewrite Hsame. split; [exact Hsame | tauto].
  - assert (Hm : matches (by_name w k) d = true)
      by (eapply card_of_matches; eauto).
    rewrite !(put_accepted w k value d _ Hk Hd). split.
    + now apply upsert_again.
    + intros e. rewrite !upsert_returns. tauto.
Qed.

(** X17. A [remove] undoes a [put] under the same name: after both, the
    collection is what the [remove] alone would have left, which is the
    collection itself when the name had no document. *)
Theorem remove_undoes_put (w : MongoDBWallet) (k : string) (value : JsValue)
    (c : Collection) :
  snd (remove w k (snd (put w k value c))) = snd (remove w k c) /\
  (stored w k c = [] -> snd (remove w k (snd (put w k value c))) = c).
Proof.
  assert (H : snd (remove w k (snd (put w k value c))) = snd (remove w k c)).
  { unfold remove. destruct (negb (truthy k)) eqn:Hk.
    - cbn [reject snd]. unfold put. now rewrite Hk.
    - cbn [Mongoose.remove snd]. apply put_other_filter.
      intros d Hp Hn. apply negb_false_iff, matches_by_name. auto. }
  split; [exact H|]. intros Hs. rewrite H.
  unfold remove. destruct (negb (truthy k)); [reflexivity|].
  cbn [Mongoose.remove snd]. now apply filter_none_id.
Qed.

Lemma remove_undoes_put_witness :
  stored walletAlpha "Joker" twoPrefixes = [] /\
  snd (remove walletAlpha "Joker"
         (snd (put walletAlpha "Joker" (JsBuffer bufferRaw) twoPrefixes)))
  = twoPrefixes.
Proof.
  split; [reflexivity|].
  apply (remove_undoes_put walletAlpha "Joker" (JsBuffer bufferRaw)
           twoPrefixes).
  reflexivity.
Defined.



(** X19. With nobody else writing, [getAll] is rejected with the error of
    the first listed name whose [get] is rejected, whatever that error
    is, and the collection is left as it was; the names after it are not
    looked at. *)
Theorem getAll_first_failure (w : MongoDBWallet) (c : Collection)
    (pre post : list string) (key : string) (e : JsError) :
  fst (listNames w c) = Return (pre ++ key :: post)%list ->
  (forall k, k ∈ pre -> exists v, fst (get w k c) = Return v) ->
  fst (get w key c) = Throw e ->
  getAll w c = (Throw e, c).
Proof.
  intros Hnames Hpre Hkey.
  rewrite listNames_eq in Hnames. injection Hnames as Hnames.
  unfold getAll, getAll_under, bind. rewrite listNames_eq, Hnames.
  now apply getAll_loop_first_failure.
Qed.

Lemma getAll_first_failure_witness :
  getAll walletAlpha foreignCards
  = (Throw (Error "Unkown type being stored"), foreignCards).
Proof.
  apply (getAll_first_failure walletAlpha foreignCards
           ["Batman-Original"] [] "Batman").
  - reflexivity.
  - intros k Hk. apply list_elem_of_In in Hk. cbn in Hk.
    destruct Hk as [<-|[]]. eexists. reflexivity.
  - reflexivity.
Defined.

(** X20. The four reading methods never write: whatever they are asked
    and however they settle, [get], [contains], [listNames] and, with
    nobody else writing, [getAll] leave the collection as it is. *)
Theorem reads_never_write (w : MongoDBWallet) (k : string) (c : Collection) :
  snd (get w k c) = c /\
  snd (contains w k c) = c /\
  snd (listNames w c) = c /\
  snd (getAll w c) = c.
Proof.
  split; [apply get_state|].
  split; [apply contains_state|].
  split; [reflexivity | apply getAll_state].
Qed.

(** X21. On a collection that wallets alone have written to, [get]
    resolves with a primitive string or a buffer, or it is rejected for an
    empty name with "Name must be specified", or for a name without a
    document with "The specified key does not exist"; its third error,
    "Unkown type being stored", cannot occur. *)
Theorem get_outcomes (w : MongoDBWallet) (k : string) (c : Collection) :
  reachable c ->
  match fst (get w k c) with
  | Return v => supported v
  | Throw e =>
      (k = "" /\ e = Error "Name must be specified") \/
      (k ≠ "" /\ stored w k c = [] /\
       e = Error "The specified key does not exist")
  end.
Proof.
  intros Hc. destruct (decide (k = "")) as [->|Hk]; [cbn; auto|].
  destruct (stored w k c) as [|d l] eqn:Hs.
  - rewrite (get_missing w k c Hk Hs). cbn. auto.
  - assert (Hd : In d c).
    { assert (Hin : In d (stored w k c)) by (rewrite Hs; now left).
      now apply stored_In in Hin. }
    destruct (get_well_formed w k c d Hk) as (v & Hv & Hsup).
    + now rewrite Hs.
    + now apply (reachable_well_formed c).
    + now rewrite Hv.
Qed.

Lemma get_outcomes_witness :
  reachable afterPuts /\
  fst (get walletBeta "Batman" afterPuts) = Return (JsBuffer buffer123) /\
  supported (JsBuffer buffer123).
Proof.
  assert (Hr : reachable afterPuts) by (repeat constructor).
  pose proof (get_outcomes walletBeta "Batman" afterPuts Hr) as H.
  split; [exact Hr|]. split; [reflexivity | exact H].
Defined.

(** X22. The text stored for a buffer of [n] bytes has [4 * ceil(n / 3)]
    characters: four for every group of three bytes, the last group
    padded. *)
Theorem encode_length (bs : list byte) :
  String.length (Base64.encode bs) = 4 * ((length bs + 2) / 3).
Proof.
  induction bs as [|a|a b|a b c rest IH] using list_ind3;
    try reflexivity.
  cbn [Base64.encode String.length length]. rewrite IH.
  replace (S (S (S (length rest))) + 2) with (length rest + 2 + 1 * 3) by lia.
  rewrite Nat.div_add by lia. lia.
Qed.

(** X23. The decoder ignores white space: a space, a tab, a line feed or
    a carriage return anywhere in the text does not change the bytes
    decoded from it. *)
Theorem decode_ignores_whitespace (ch : ascii) (s1 s2 : string) :
  In ch Base64.whitespace ->
  Base64.decode (s1 ++ String ch s2) = Base64.decode (s1 ++ s2).
Proof.
  intros Hch. unfold Base64.decode. f_equal.
  apply sextets_skip;
    cbn in Hch; destruct Hch as [<-|[<-|[<-|[<-|[]]]]]; reflexivity.
Qed.

Lemma decode_ignores_whitespace_witness :
  In "010"%char Base64.whitespace /\
  Base64.decode ("AQ" ++ String "010"%char "ID") = buffer123.
Proof.
  assert (Hin : In "010"%char Base64.whitespace) by (cbn; auto).
  split; [exact Hin|].
  rewrite (decode_ignores_whitespace "010"%char "AQ" "ID" Hin).
  reflexivity.
Defined.

End Properties.
